(** * Azure AI Foundry plugin for Genkit (Go): message translation,
      response assembly and streaming reconstruction

    A shallow embedding of [azureaifoundry_plugin.go]: the functions
    [convertMessagesToOpenAI], [convertResponse], [convertFinishReason],
    [generateTextStream] and [convertToolCallsToParts], over records that
    follow the Go structs of the [ai] (Genkit) and [openai] packages.

    Conventions.
    - A Go [string] is a [string]; [strings.Builder] is the string written
      so far.
    - A Go pair [(T, error)] is a [result T].  [fmt.Errorf("ctx: %w", e)] is
      [Wrap "ctx" e].
    - The streaming callback is a Go closure with effects of its own: it is
      a state-passing function over an arbitrary state type [S].
    - [map[int]*toolCallAccumulator] is a [gmap Z toolCallAccumulator]; the
      order in which Go's [range] visits a map is unspecified, so the
      functions that range over it take the visiting order as an argument
      [range], and theorems hold for every order that enumerates the map.
    - [encoding/json] is a collaborator: the plugin functions take the
      decoder and encoder as arguments ([Unmarshal], [Marshal]).  A
      reference decoder for the JSON grammar is given for running examples.
    - Pointers to messages and parts are taken non-nil, as Genkit hands
      them over; a nil [ToolRequest]/[ToolResponse] pointer inside a part is
      modelled, and dereferencing it panics ([None]). *)

From Stdlib Require Import ZArith String Ascii List Lia.
From stdpp Require Import base option list gmap strings.

Local Open Scope string_scope.
Local Open Scope list_scope.
Local Open Scope Z_scope.

(** ** Go errors and results *)

Inductive error :=
| ErrorString (msg : string)
| Wrap (context : string) (cause : error).

Inductive result (A : Type) :=
| Ok (a : A)
| Err (e : error).
Arguments Ok {A} a.
Arguments Err {A} e.

Definition is_ok {A} (r : result A) : bool :=
  match r with Ok _ => true | Err _ => false end.

(** [s != ""] *)
Definition nonEmpty (s : string) : bool := negb (String.eqb s "").

(** [int(x)] for an [int64] [x]: Go's [int] has [intSize] bits (64 on the
    platforms the module is built for); the conversion keeps the low
    [intSize] bits, read as a signed number. *)
Definition intSize : Z := 64.
Definition int (x : Z) : Z :=
  (x + 2 ^ (intSize - 1)) mod 2 ^ intSize - 2 ^ (intSize - 1).

(** ** JSON values: what [encoding/json] stores in an [interface{}] *)

#[warnings="-register-all"]
Inductive json :=
| JNull
| JBool (b : bool)
| JNumber (literal : string)
| JString (s : string)
| JArray (elems : list json)
| JObject (fields : gmap string json).

(** [map[string]interface{}]: [None] is the nil map. *)
Abbreviation jsonMap := (option (gmap string json)).

(** A [map[string]interface{}] stored in a field of type [any]. *)
Definition anyOfMap (m : jsonMap) : json :=
  match m with
  | None => JNull
  | Some fields => JObject fields
  end.

(** *** A reference decoder

    Numbers keep their literal (as [json.Number] does); [\u] escapes are not
    decoded and make the reference decoder reject the text. *)
Module JSONRef.

Inductive token :=
| TLBrace | TRBrace | TLBracket | TRBracket | TColon | TComma
| TStr (s : string) | TNum (literal : string)
| TTrue | TFalse | TNull.

Definition isSpace (c : ascii) : bool :=
  (Ascii.eqb c " " || Ascii.eqb c "009" || Ascii.eqb c "010" || Ascii.eqb c "013")%bool.

Definition isDigit (c : ascii) : bool :=
  ((48 <=? nat_of_ascii c)%nat && (nat_of_ascii c <=? 57)%nat)%bool.

Definition isNumChar (c : ascii) : bool :=
  (isDigit c || Ascii.eqb c "-" || Ascii.eqb c "+" || Ascii.eqb c "."
   || Ascii.eqb c "e" || Ascii.eqb c "E")%bool.

(** The double quote character. *)
Definition quote : ascii := "034"%char.

Definition unescape (c : ascii) : option ascii :=
  if Ascii.eqb c quote then Some quote
  else if Ascii.eqb c "\" then Some "\"%char
  else if Ascii.eqb c "/" then Some "/"%char
  else if Ascii.eqb c "b" then Some "008"%char
  else if Ascii.eqb c "f" then Some "012"%char
  else if Ascii.eqb c "n" then Some "010"%char
  else if Ascii.eqb c "r" then Some "013"%char
  else if Ascii.eqb c "t" then Some "009"%char
  else None.

(** The body of a string literal, after its opening quote. *)
Fixpoint lexString (esc : bool) (cs : list ascii) : option (string * list ascii) :=
  match cs with
  | [] => None
  | c :: cs' =>
      if esc then
        match unescape c, lexString false cs' with
        | Some c', Some (s, rest) => Some (String c' s, rest)
        | _, _ => None
        end
      else if Ascii.eqb c quote then Some (EmptyString, cs')
      else if Ascii.eqb c "\" then lexString true cs'
      else if (nat_of_ascii c <? 32)%nat then None
      else
        match lexString false cs' with
        | Some (s, rest) => Some (String c s, rest)
        | None => None
        end
  end.

Fixpoint spanNum (cs : list ascii) : list ascii * list ascii :=
  match cs with
  | c :: cs' =>
      if isNumChar c then let '(n, rest) := spanNum cs' in (c :: n, rest)
      else ([], cs)
  | [] => ([], [])
  end.

(** The number grammar as an automaton: an optional minus sign; then a
    single zero, or a non-zero digit followed by digits; then optionally a
    dot and one or more digits; then optionally an exponent (e or E, an
    optional sign, one or more digits). *)
Inductive numState :=
| NStart | NMinus | NZero | NInt | NDot | NFrac | NE | NESign | NExp.

Definition numStep (q : numState) (c : ascii) : option numState :=
  let d := isDigit c in
  let z := Ascii.eqb c "0" in
  let e := (Ascii.eqb c "e" || Ascii.eqb c "E")%bool in
  match q with
  | NStart => if Ascii.eqb c "-" then Some NMinus
              else if z then Some NZero else if d then Some NInt else None
  | NMinus => if z then Some NZero else if d then Some NInt else None
  | NZero => if Ascii.eqb c "." then Some NDot else if e then Some NE else None
  | NInt => if d then Some NInt
            else if Ascii.eqb c "." then Some NDot else if e then Some NE else None
  | NDot => if d then Some NFrac else None
  | NFrac => if d then Some NFrac else if e then Some NE else None
  | NE => if (Ascii.eqb c "+" || Ascii.eqb c "-")%bool then Some NESign
          else if d then Some NExp else None
  | NESign => if d then Some NExp else None
  | NExp => if d then Some NExp else None
  end.

Fixpoint numRun (q : numState) (cs : list ascii) : bool :=
  match cs with
  | [] => match q with NZero | NInt | NFrac | NExp => true | _ => false end
  | c :: cs' => match numStep q c with Some q' => numRun q' cs' | None => false end
  end.

Fixpoint lex (fuel : nat) (cs : list ascii) : option (list token) :=
  match fuel with
  | O => None
  | S fuel' =>
      match cs with
      | [] => Some []
      | c :: cs' =>
          if isSpace c then lex fuel' cs'
          else if Ascii.eqb c "{" then cons TLBrace <$> lex fuel' cs'
          else if Ascii.eqb c "}" then cons TRBrace <$> lex fuel' cs'
          else if Ascii.eqb c "[" then cons TLBracket <$> lex fuel' cs'
          else if Ascii.eqb c "]" then cons TRBracket <$> lex fuel' cs'
          else if Ascii.eqb c ":" then cons TColon <$> lex fuel' cs'
          else if Ascii.eqb c "," then cons TComma <$> lex fuel' cs'
          else if Ascii.eqb c quote then
            match lexString false cs' with
            | Some (s, rest) => cons (TStr s) <$> lex fuel' rest
            | None => None
            end
          else if isNumChar c then
            let '(n, rest) := spanNum cs in
            if numRun NStart n
            then cons (TNum (string_of_list_ascii n)) <$> lex fuel' rest
            else None
          else
            match cs with
            | "t" :: "r" :: "u" :: "e" :: rest => cons TTrue <$> lex fuel' rest
            | "f" :: "a" :: "l" :: "s" :: "e" :: rest => cons TFalse <$> lex fuel' rest
            | "n" :: "u" :: "l" :: "l" :: rest => cons TNull <$> lex fuel' rest
            | _ => None
            end
      end
  end%char.

(** Recursive descent over the tokens.  In an object a later member
    replaces an earlier one with the same key, as in a Go map. *)
Fixpoint parseValue (fuel : nat) (ts : list token) : option (json * list token) :=
  match fuel with
  | O => None
  | S fuel' =>
      match ts with
      | TNull :: r => Some (JNull, r)
      | TTrue :: r => Some (JBool true, r)
      | TFalse :: r => Some (JBool false, r)
      | TNum n :: r => Some (JNumber n, r)
      | TStr s :: r => Some (JString s, r)
      | TLBracket :: TRBracket :: r => Some (JArray [], r)
      | TLBracket :: r =>
          match parseElems fuel' r with
          | Some (l, r') => Some (JArray l, r')
          | None => None
          end
      | TLBrace :: TRBrace :: r => Some (JObject ∅, r)
      | TLBrace :: r =>
          match parseMembers fuel' ∅ r with
          | Some (m, r') => Some (JObject m, r')
          | None => None
          end
      | _ => None
      end
  end
with parseElems (fuel : nat) (ts : list token) : option (list json * list token) :=
  match fuel with
  | O => None
  | S fuel' =>
      match parseValue fuel' ts with
      | Some (v, TComma :: r) =>
          match parseElems fuel' r with
          | Some (l, r') => Some (v :: l, r')
          | None => None
          end
      | Some (v, TRBracket :: r) => Some ([v], r)
      | _ => None
      end
  end
with parseMembers (fuel : nat) (acc : gmap string json) (ts : list token)
  : option (gmap string json * list token) :=
  match fuel with
  | O => None
  | S fuel' =>
      match ts with
      | TStr k :: TColon :: r =>
          match parseValue fuel' r with
          | Some (v, TComma :: r') => parseMembers fuel' (<[k := v]> acc) r'
          | Some (v, TRBrace :: r') => Some (<[k := v]> acc, r')
          | _ => None
          end
      | _ => None
      end
  end.

Definition parse (s : string) : option json :=
  let cs := list_ascii_of_string s in
  match lex (S (length cs)) cs with
  | Some ts =>
      match parseValue (2 * length ts + 2) ts with
      | Some (v, []) => Some v
      | _ => None
      end
  | None => None
  end.

(** [json.Unmarshal([]byte(s), &args)] for [var args map[string]interface{}]:
    the text must be one JSON value; [null] leaves [args] nil, an object
    fills it, any other value is a type error. *)
Definition Unmarshal (s : string) : result jsonMap :=
  match parse s with
  | None => Err (ErrorString "invalid character or unexpected end of JSON input")
  | Some JNull => Ok None
  | Some (JObject m) => Ok (Some m)
  | Some _ => Err (ErrorString "json: cannot unmarshal into Go value of type map[string]interface {}")
  end.

End JSONRef.

(** ** The Genkit side: package [ai] *)
Module ai.

Definition Role := string.
Definition RoleSystem : Role := "system".
Definition RoleUser : Role := "user".
Definition RoleModel : Role := "model".
Definition RoleTool : Role := "tool".

Inductive PartKind :=
| PartText | PartMedia | PartData | PartToolRequest | PartToolResponse
| PartCustom | PartReasoning.

#[global] Instance PartKind_eq_dec : EqDecision PartKind.
Proof. solve_decision. Defined.

Record ToolRequest := {
  ToolRequest_Name : string;
  ToolRequest_Input : json;
}.

Record ToolResponse := {
  ToolResponse_Name : string;
  ToolResponse_Output : json;
}.

(** [ai.Part]: one struct for every kind of part; [Text] also carries the
    contents of a media part. *)
Record Part := {
  Kind : PartKind;
  ContentType : string;
  Text : string;
  Part_ToolRequest : option ToolRequest;
  Part_ToolResponse : option ToolResponse;
}.

Definition NewTextPart (text : string) : Part :=
  {| Kind := PartText; ContentType := "plain/text"; Text := text;
     Part_ToolRequest := None; Part_ToolResponse := None |}.

Definition NewMediaPart (mimeType contents : string) : Part :=
  {| Kind := PartMedia; ContentType := mimeType; Text := contents;
     Part_ToolRequest := None; Part_ToolResponse := None |}.

Definition NewToolRequestPart (r : ToolRequest) : Part :=
  {| Kind := PartToolRequest; ContentType := ""; Text := "";
     Part_ToolRequest := Some r; Part_ToolResponse := None |}.

Definition NewToolResponsePart (r : ToolResponse) : Part :=
  {| Kind := PartToolResponse; ContentType := ""; Text := "";
     Part_ToolRequest := None; Part_ToolResponse := Some r |}.

Definition IsText (p : Part) : bool := bool_decide (Kind p = PartText).
Definition IsToolRequest (p : Part) : bool := bool_decide (Kind p = PartToolRequest).
Definition IsToolResponse (p : Part) : bool := bool_decide (Kind p = PartToolResponse).

Record Message := {
  Message_Role : Role;
  Content : list Part;
}.

Inductive FinishReason :=
| FinishReasonStop
| FinishReasonLength
| FinishReasonBlocked
| FinishReasonOther
| FinishReasonUnknown.

Record GenerationUsage := {
  InputTokens : Z;
  OutputTokens : Z;
  TotalTokens : Z;
}.

(** [Usage] is a pointer in Go: [None] is nil. *)
Record ModelResponse := {
  ModelResponse_Message : Message;
  ModelResponse_FinishReason : FinishReason;
  Usage : option GenerationUsage;
}.

Record ModelResponseChunk := {
  Chunk_Content : list Part;
}.

(** The counters of a response as a reader sees them: zero when no usage
    record is attached. *)
Definition usageCounters (r : ModelResponse) : Z * Z * Z :=
  match Usage r with
  | Some u => (InputTokens u, OutputTokens u, TotalTokens u)
  | None => (0, 0, 0)
  end.

End ai.

(** ** The wire side: package [openai] *)
Module openai.

(** Request messages. *)
Record ChatCompletionMessageFunctionToolCallParam := {
  Param_ID : string;
  Param_Type : string;
  Param_Function_Name : string;
  Param_Function_Arguments : string;
}.

Inductive ChatCompletionMessageParamUnion :=
| OfSystem (content : string)
| OfUser (content : string)
| OfAssistant (content : string)
    (toolCalls : list ChatCompletionMessageFunctionToolCallParam)
| OfTool (content : string) (toolCallID : string).

(** A complete response. *)
Record ChatCompletionMessageFunctionToolCall := {
  ID : string;
  Function_Name : string;
  Function_Arguments : string;
  Type_ : string;
}.

(** The union of function and custom tool calls, flattened as the SDK
    does; [AsFunction] reads it as a function tool call. *)
Record ChatCompletionMessageToolCallUnion := {
  Union_ID : string;
  Union_Function_Name : string;
  Union_Function_Arguments : string;
  Union_Type : string;
}.

Definition AsFunction (u : ChatCompletionMessageToolCallUnion)
  : ChatCompletionMessageFunctionToolCall :=
  {| ID := Union_ID u;
     Function_Name := Union_Function_Name u;
     Function_Arguments := Union_Function_Arguments u;
     Type_ := Union_Type u |}.

Record ChatCompletionMessage := {
  Message_Content : string;
  Message_ToolCalls : list ChatCompletionMessageToolCallUnion;
}.

Record ChatCompletionChoice := {
  FinishReason : string;
  Message : ChatCompletionMessage;
}.

Record CompletionUsage := {
  PromptTokens : Z;
  CompletionTokens : Z;
  TotalTokens : Z;
}.

Record ChatCompletion := {
  Choices : list ChatCompletionChoice;
  Usage : CompletionUsage;
}.

(** A streamed response. *)
Record ChatCompletionChunkChoiceDeltaToolCall := {
  Index : Z;
  Delta_ID : string;
  Delta_Function_Name : string;
  Delta_Function_Arguments : string;
}.

Record ChatCompletionChunkChoiceDelta := {
  Delta_Content : string;
  Delta_ToolCalls : list ChatCompletionChunkChoiceDeltaToolCall;
}.

Record ChatCompletionChunkChoice := {
  Delta : ChatCompletionChunkChoiceDelta;
}.

Record ChatCompletionChunk := {
  Chunk_Choices : list ChatCompletionChunkChoice;
}.

(** What [NewStreaming] hands back, as the loop sees it: the chunks that
    [Next]/[Current] deliver before [Next] returns false, and the error
    [Err] then reports (if any). *)
Record Stream := {
  chunks : list ChatCompletionChunk;
  streamErr : option error;
}.

End openai.

(** ** The plugin: [azureaifoundry_plugin.go] *)

(** [for _, x := range xs { st = body st x }] where the body may panic. *)
Fixpoint forRange {A St : Type} (body : St → A → option St)
    (xs : list A) (st : St) : option St :=
  match xs with
  | [] => Some st
  | x :: xs' =>
      match body st x with
      | Some st' => forRange body xs' st'
      | None => None
      end
  end.

(** The same loop where the body may [return nil, err]. *)
Fixpoint forRangeErr {A St : Type} (body : St → A → result St)
    (xs : list A) (st : St) : result St :=
  match xs with
  | [] => Ok st
  | x :: xs' =>
      match body st x with
      | Ok st' => forRangeErr body xs' st'
      | Err e => Err e
      end
  end.

(** [toolCallAccumulator]: tool call information held during streaming. *)
Record toolCallAccumulator := {
  id : string;
  name : string;
  arguments : string;
}.

(** The local variables of [generateTextStream]'s loop. *)
Record streamVars := {
  fullText : string;
  toolCallsMap : gmap Z toolCallAccumulator;
}.

(** How a run of the [for stream.Next()] loop ends: the variables and the
    callback's state at that point, and the error if the loop was left by
    [return nil, err]. *)
Record loopEnd (S : Type) := {
  vars : streamVars;
  sink : S;
  returned : option error;
}.
Arguments vars {S} _.
Arguments sink {S} _.
Arguments returned {S} _.

Section Plugin.

(** [json.Unmarshal] into a [map[string]interface{}] and [json.Marshal]. *)
Context (Unmarshal : string → result jsonMap).
Context (Marshal : json → result string).
(** The order in which [range toolCallsMap] visits the entries. *)
Context (range : gmap Z toolCallAccumulator → list (Z * toolCallAccumulator)).
(** The state the streaming callback acts on. *)
Context {S : Type}.

Import ai openai.

(** [fmt.Sprintf("call_%s", name)] *)
Definition callID (name : string) : string := "call_" +:+ name.

(** The body of the loop over the parts of a model-role message. *)
Definition assistantPart
    (acc : string * list ChatCompletionMessageFunctionToolCallParam)
    (part : Part)
  : option (string * list ChatCompletionMessageFunctionToolCallParam) :=
  let '(textContent, toolCalls) := acc in
  if IsText part then Some (textContent +:+ Text part, toolCalls)
  else if IsToolRequest part then
    match Part_ToolRequest part with
    | None => None
    | Some toolReq =>
        match Marshal (ToolRequest_Input toolReq) with
        | Err _ => Some acc
        | Ok argsJSON =>
            Some (textContent,
                  toolCalls ++
                  [ {| Param_ID := callID (ToolRequest_Name toolReq);
                       Param_Type := "function";
                       Param_Function_Name := ToolRequest_Name toolReq;
                       Param_Function_Arguments := argsJSON |} ])
        end
    end
  else Some acc.

(** The body of the loop over the parts of a tool-role message. *)
Definition toolPart (openAIMessages : list ChatCompletionMessageParamUnion)
    (part : Part) : option (list ChatCompletionMessageParamUnion) :=
  if IsToolResponse part then
    match Part_ToolResponse part with
    | None => None
    | Some toolResp =>
        match Marshal (ToolResponse_Output toolResp) with
        | Err _ => Some openAIMessages
        | Ok outputJSON =>
            Some (openAIMessages ++
                  [OfTool outputJSON (callID (ToolResponse_Name toolResp))])
        end
    end
  else Some openAIMessages.

(** The body of [convertMessagesToOpenAI]'s loop over the messages. *)
Definition convertMessage (openAIMessages : list ChatCompletionMessageParamUnion)
    (msg : ai.Message) : option (list ChatCompletionMessageParamUnion) :=
  match Content msg with
  | [] => Some openAIMessages
  | part0 :: _ =>
      if String.eqb (Message_Role msg) RoleSystem then
        Some (openAIMessages ++ [OfSystem (Text part0)])
      else if String.eqb (Message_Role msg) RoleUser then
        Some (openAIMessages ++ [OfUser (Text part0)])
      else if String.eqb (Message_Role msg) RoleModel then
        match forRange assistantPart (Content msg) ("", []) with
        | Some (textContent, toolCalls) =>
            Some (openAIMessages ++ [OfAssistant textContent toolCalls])
        | None => None
        end
      else if String.eqb (Message_Role msg) RoleTool then
        forRange toolPart (Content msg) openAIMessages
      else Some openAIMessages
  end.

(** [convertMessagesToOpenAI]: Genkit messages to wire messages. *)
Definition convertMessagesToOpenAI (messages : list ai.Message)
  : option (list ChatCompletionMessageParamUnion) :=
  forRange convertMessage messages [].

(** [convertFinishReason] *)
Definition convertFinishReason (reason : string) : ai.FinishReason :=
  if String.eqb reason "stop" then FinishReasonStop
  else if String.eqb reason "length" then FinishReasonLength
  else if String.eqb reason "content_filter" then FinishReasonBlocked
  else if (String.eqb reason "tool_calls" || String.eqb reason "function_call")%bool
  then FinishReasonStop
  else FinishReasonOther.

(** The body of [convertResponse]'s loop over the wire tool calls. *)
Definition responseToolCall (content : list Part)
    (toolCall : ChatCompletionMessageToolCallUnion) : list Part :=
  let functionToolCall := AsFunction toolCall in
  if nonEmpty (ID functionToolCall) then
    match Unmarshal (Function_Arguments functionToolCall) with
    | Err _ => content
    | Ok args =>
        content ++
        [NewToolRequestPart
           {| ToolRequest_Name := Function_Name functionToolCall;
              ToolRequest_Input := anyOfMap args |}]
    end
  else content.

(** [convertResponse]: a complete wire response to a Genkit response.  Its
    second argument [originalInput] is not read by the body and is left
    out. *)
Definition convertResponse (resp : ChatCompletion) : ModelResponse :=
  match Choices resp with
  | [] =>
      {| ModelResponse_Message := {| Message_Role := RoleModel; Content := [] |};
         ModelResponse_FinishReason := FinishReasonUnknown;
         ai.Usage := None |}
  | choice :: _ =>
      let content :=
        if nonEmpty (Message_Content (Message choice))
        then [NewTextPart (Message_Content (Message choice))] else [] in
      let content :=
        fold_left responseToolCall (Message_ToolCalls (Message choice)) content in
      let finishReason := convertFinishReason (FinishReason choice) in
      let usage :=
        if 0 <? PromptTokens (Usage resp) then
          {| InputTokens := int (PromptTokens (Usage resp));
             OutputTokens := int (CompletionTokens (Usage resp));
             ai.TotalTokens := int (openai.TotalTokens (Usage resp)) |}
        else {| InputTokens := 0; OutputTokens := 0; ai.TotalTokens := 0 |} in
      {| ModelResponse_Message := {| Message_Role := RoleModel; Content := content |};
         ModelResponse_FinishReason := finishReason;
         ai.Usage := Some usage |}
  end.

(** *** Streaming *)

(** The body of the loop over [delta.ToolCalls]. *)
Definition accumulateToolCall (toolCallsMap : gmap Z toolCallAccumulator)
    (toolCallDelta : ChatCompletionChunkChoiceDeltaToolCall)
  : gmap Z toolCallAccumulator :=
  let idx := int (Index toolCallDelta) in
  let m1 :=
    match toolCallsMap !! idx with
    | None =>
        <[idx := {| id := Delta_ID toolCallDelta; name := ""; arguments := "" |}]>
          toolCallsMap
    | Some _ => toolCallsMap
    end in
  let m2 :=
    if nonEmpty (Delta_Function_Name toolCallDelta) then
      alter (λ a, {| id := id a; name := Delta_Function_Name toolCallDelta;
                     arguments := arguments a |}) idx m1
    else m1 in
  if nonEmpty (Delta_Function_Arguments toolCallDelta) then
    alter (λ a, {| id := id a; name := name a;
                   arguments := arguments a +:+ Delta_Function_Arguments toolCallDelta |})
      idx m2
  else m2.

(** The body of the [for stream.Next()] loop on one chunk. *)
Definition processChunk
    (cb : option (S → ModelResponseChunk → S * option error))
    (v : streamVars) (s : S) (chunk : ChatCompletionChunk) : loopEnd S :=
  match Chunk_Choices chunk with
  | [] => {| vars := v; sink := s; returned := None |}
  | choice :: _ =>
      let delta := Delta choice in
      let afterContent :=
        if nonEmpty (Delta_Content delta) then
          let v1 := {| fullText := fullText v +:+ Delta_Content delta;
                       toolCallsMap := toolCallsMap v |} in
          match cb with
          | Some cb =>
              let chunkResponse :=
                {| Chunk_Content := [NewTextPart (Delta_Content delta)] |} in
              match cb s chunkResponse with
              | (s', Some err) =>
                  {| vars := v1; sink := s';
                     returned := Some (Wrap "streaming callback error" err) |}
              | (s', None) => {| vars := v1; sink := s'; returned := None |}
              end
          | None => {| vars := v1; sink := s; returned := None |}
          end
        else {| vars := v; sink := s; returned := None |} in
      match returned afterContent with
      | Some _ => afterContent
      | None =>
          {| vars :=
               {| fullText := fullText (vars afterContent);
                  toolCallsMap :=
                    fold_left accumulateToolCall (Delta_ToolCalls delta)
                      (toolCallsMap (vars afterContent)) |};
             sink := sink afterContent;
             returned := None |}
      end
  end.

(** The [for stream.Next()] loop. *)
Fixpoint streamLoop
    (cb : option (S → ModelResponseChunk → S * option error))
    (cs : list ChatCompletionChunk) (v : streamVars) (s : S) : loopEnd S :=
  match cs with
  | [] => {| vars := v; sink := s; returned := None |}
  | chunk :: cs' =>
      let r := processChunk cb v s chunk in
      match returned r with
      | Some _ => r
      | None => streamLoop cb cs' (vars r) (sink r)
      end
  end.

(** The body of [convertToolCallsToParts]'s loop over the map. *)
Definition toolCallPart (parts : list Part) (entry : Z * toolCallAccumulator)
  : result (list Part) :=
  let toolCall := entry.2 in
  if String.eqb (name toolCall) "" then Ok parts
  else
    let parsed :=
      if (0 <? String.length (arguments toolCall))%nat then Unmarshal (arguments toolCall)
      else Ok None in
    match parsed with
    | Err err =>
        Err (Wrap ("failed to unmarshal tool arguments for '" +:+ name toolCall +:+ "'") err)
    | Ok args =>
        Ok (parts ++
            [NewToolRequestPart
               {| ToolRequest_Name := name toolCall;
                  ToolRequest_Input := anyOfMap args |}])
    end.

(** [convertToolCallsToParts]: accumulated tool calls to parts. *)
Definition convertToolCallsToParts (toolCallsMap : gmap Z toolCallAccumulator)
  : result (list Part) :=
  forRangeErr toolCallPart (range toolCallsMap) [].

(** [generateTextStream]: the streamed response [stream] that
    [NewStreaming] returned is consumed, text is forwarded to [cb], and the
    response is assembled.  The result comes with the callback's state. *)
Definition generateTextStream (stream : Stream)
    (cb : option (S → ModelResponseChunk → S * option error)) (s0 : S)
  : S * result ModelResponse :=
  let r := streamLoop cb (chunks stream)
             {| fullText := ""; toolCallsMap := ∅ |} s0 in
  match returned r with
  | Some err => (sink r, Err err)
  | None =>
      match streamErr stream with
      | Some err => (sink r, Err (Wrap "stream error" err))
      | None =>
          let content :=
            if (0 <? String.length (fullText (vars r)))%nat
            then [NewTextPart (fullText (vars r))] else [] in
          match convertToolCallsToParts (toolCallsMap (vars r)) with
          | Err err => (sink r, Err (Wrap "failed to convert tool calls" err))
          | Ok toolParts =>
              (sink r,
               Ok {| ModelResponse_Message :=
                       {| Message_Role := RoleModel; Content := content ++ toolParts |};
                     ModelResponse_FinishReason := FinishReasonStop;
                     ai.Usage := None |})
          end
      end
  end.

End Plugin.

(** ** Vocabulary of the statements *)

Import ai openai.

(** The variables of [generateTextStream] before its loop. *)
Definition initialVars : streamVars := {| fullText := ""; toolCallsMap := ∅ |}.

(** The tool-call fragments a chunk carries: those of the delta of its
    first choice. *)
Definition chunkFragments (chunk : ChatCompletionChunk)
  : list ChatCompletionChunkChoiceDeltaToolCall :=
  match Chunk_Choices chunk with
  | [] => []
  | choice :: _ => Delta_ToolCalls (Delta choice)
  end.

(** The fragments of a chunk sequence, in arrival order. *)
Definition fragmentsOf (cs : list ChatCompletionChunk)
  : list ChatCompletionChunkChoiceDeltaToolCall :=
  cs ≫= chunkFragments.

(** The fragments addressed to index [i]. *)
Definition fragmentsAt (i : Z) (fs : list ChatCompletionChunkChoiceDeltaToolCall)
  : list ChatCompletionChunkChoiceDeltaToolCall :=
  filter (λ d, int (Index d) = i) fs.

(** The argument texts of a fragment list, concatenated in order. *)
Definition argumentText (fs : list ChatCompletionChunkChoiceDeltaToolCall) : string :=
  foldr (λ d rest, Delta_Function_Arguments d +:+ rest) "" fs.

(** The accumulator a fragment finds at its index: the stored one, or the
    one created for it. *)
Definition accumulatorFor (m : gmap Z toolCallAccumulator)
    (d : ChatCompletionChunkChoiceDeltaToolCall) : toolCallAccumulator :=
  default {| id := Delta_ID d; name := ""; arguments := "" |}
          (m !! int (Index d)).

(** A streaming parse is attempted, and fails, on an accumulator that has
    a name and a non-empty argument buffer that the decoder rejects. *)
Definition parseFails (Unmarshal : string → result jsonMap)
    (a : toolCallAccumulator) : Prop :=
  name a ≠ "" ∧ arguments a ≠ "" ∧ is_ok (Unmarshal (arguments a)) = false.

(** [range] visits every entry of the map exactly once. *)
Definition rangeOrder
    (range : gmap Z toolCallAccumulator → list (Z * toolCallAccumulator)) : Prop :=
  ∀ m, range m ≡ₚ map_to_list m.

(** A wire response with the tool calls of its first choice replaced. *)
Definition withToolCalls (resp : ChatCompletion)
    (toolCalls : list ChatCompletionMessageToolCallUnion) : ChatCompletion :=
  match Choices resp with
  | [] => resp
  | choice :: others =>
      {| Choices :=
           {| FinishReason := FinishReason choice;
              Message := {| Message_Content := Message_Content (Message choice);
                            Message_ToolCalls := toolCalls |} |} :: others;
         openai.Usage := openai.Usage resp |}
  end.

(** Every part of every message is a Text part. *)
Definition textOnly (messages : list ai.Message) : Prop :=
  Forall (λ msg, Forall (λ part, IsText part = true) (Content msg)) messages.

(** Messages with a non-empty part sequence. *)
Definition hasParts (msg : ai.Message) : bool :=
  match Content msg with [] => false | _ :: _ => true end.

(** Roles whose message becomes one wire message. *)
Definition singleMessageRole (msg : ai.Message) : bool :=
  (String.eqb (Message_Role msg) RoleSystem
   || String.eqb (Message_Role msg) RoleUser
   || String.eqb (Message_Role msg) RoleModel)%bool.

Definition countIf {A} (p : A → bool) (l : list A) : nat :=
  length (List.filter p l).



(** Messages that become exactly one wire message when their parts are
    all Text parts. *)
Definition emitsOneMessage (msg : ai.Message) : bool :=
  (hasParts msg && singleMessageRole msg)%bool.

(** *** Sample data *)

(** A tool-role message whose only part is a Text part. *)
Definition toolTextMessage : ai.Message :=
  {| Message_Role := RoleTool; Content := [NewTextPart "42"] |}.



Definition conversation : list ai.Message :=
  [ {| Message_Role := RoleSystem; Content := [NewTextPart "Be brief."] |};
    {| Message_Role := RoleUser; Content := [] |};
    {| Message_Role := RoleUser; Content := [NewTextPart "Hi"; NewTextPart "there"] |};
    {| Message_Role := RoleModel; Content := [NewTextPart "Hel"; NewTextPart "lo"] |};
    toolTextMessage ].

(** An encoder that serializes nothing. *)
Definition noMarshal (v : json) : result string :=
  Err (ErrorString "json: unsupported value").

(** A callback that counts its calls and fails on the [n]-th one. *)
Definition failOnCall (n : nat) (calls : nat) (chunk : ModelResponseChunk)
  : nat * option error :=
  (Datatypes.S calls,
   if (Datatypes.S calls =? n)%nat then Some (ErrorString "sink closed") else None).

(** A callback that records the text it is given and never fails. *)
Definition recordText (seen : list string) (chunk : ModelResponseChunk)
  : list string * option error :=
  (seen ++ map Text (Chunk_Content chunk), None).

Definition fragment (index : Z) (fname args : string)
  : ChatCompletionChunkChoiceDeltaToolCall :=
  {| Index := index; Delta_ID := ""; Delta_Function_Name := fname;
     Delta_Function_Arguments := args |}.

Definition deltaChunk (content : string)
    (toolCalls : list ChatCompletionChunkChoiceDeltaToolCall) : ChatCompletionChunk :=
  {| Chunk_Choices :=
       [ {| Delta := {| Delta_Content := content; Delta_ToolCalls := toolCalls |} |} ] |}.

(** A string between double quotes. *)
Definition quoted (s : string) : string :=
  String JSONRef.quote (s +:+ String JSONRef.quote "").

(** The text of the object with the one member a, of value 1; and the same
    text without its closing brace. *)
Definition fooArguments : string := "{" +:+ quoted "a" +:+ ":1}".
Definition fooArgumentsOpen : string := "{" +:+ quoted "a" +:+ ":1".

(** The interleaving example: index 0 (foo), index 1 (bar), index 0 again. *)
Definition interleavedStream : Stream :=
  {| chunks := [ deltaChunk "" [fragment 0 "foo" fooArgumentsOpen];
                 deltaChunk "" [fragment 1 "bar" "{}"];
                 deltaChunk "" [fragment 0 "" "}"] ];
     streamErr := None |}.

(** The fragment map the example accumulates. *)
Definition fooCall : toolCallAccumulator :=
  {| id := ""; name := "foo"; arguments := fooArguments |}.

Definition barCall : toolCallAccumulator :=
  {| id := ""; name := "bar"; arguments := "{}" |}.

Definition interleavedMap : gmap Z toolCallAccumulator :=
  {[ 0 := fooCall; 1 := barCall ]}.

(** The loop variables after a first fragment of a call to foo. *)
Definition fooOpened : toolCallAccumulator :=
  {| id := "call_1"; name := "foo"; arguments := "{" |}.

Definition fooOpenedVars : streamVars :=
  {| fullText := ""; toolCallsMap := {[ 0 := fooOpened ]} |}.

(** A response whose first tool call has malformed arguments, and the same
    tool call as an accumulated fragment. *)
Definition malformedResponse : ChatCompletion :=
  {| Choices :=
       [ {| FinishReason := "tool_calls";
            Message :=
              {| Message_Content := "hi";
                 Message_ToolCalls :=
                   [ {| Union_ID := "call_1"; Union_Function_Name := "foo";
                        Union_Function_Arguments := "{bad";
                        Union_Type := "function" |};
                     {| Union_ID := "call_2"; Union_Function_Name := "bar";
                        Union_Function_Arguments := "{}";
                        Union_Type := "function" |} ] |} |} ];
     openai.Usage := {| PromptTokens := 5; CompletionTokens := 3;
                        openai.TotalTokens := 8 |} |}.

Definition malformedCall : toolCallAccumulator :=
  {| id := "call_1"; name := "foo"; arguments := "{bad" |}.

Definition malformedMap : gmap Z toolCallAccumulator :=
  {[ 0 := malformedCall ]}.

(** Two text deltas and no tool call. *)
Definition helloStream : Stream :=
  {| chunks := [ {| Chunk_Choices :=
                      [ {| Delta := {| Delta_Content := "He"; Delta_ToolCalls := [] |} |} ] |};
                 {| Chunk_Choices :=
                      [ {| Delta := {| Delta_Content := "llo"; Delta_ToolCalls := [] |} |} ] |} ];
     streamErr := None |}.

Definition fooRequest : Part :=
  NewToolRequestPart
    {| ToolRequest_Name := "foo";
       ToolRequest_Input := JObject {[ "a" := JNumber "1" ]} |}.

Definition barRequest : Part :=
  NewToolRequestPart
    {| ToolRequest_Name := "bar"; ToolRequest_Input := JObject ∅ |}.

Definition wireResponse (content : string)
    (toolCalls : list ChatCompletionMessageToolCallUnion) (finish : string)
    (prompt completion total : Z) : ChatCompletion :=
  {| Choices := [ {| FinishReason := finish;
                     Message := {| Message_Content := content;
                                   Message_ToolCalls := toolCalls |} |} ];
     openai.Usage := {| PromptTokens := prompt; CompletionTokens := completion;
                        openai.TotalTokens := total |} |}.

Definition emptyResponse : ChatCompletion :=
  {| Choices := [];
     openai.Usage := {| PromptTokens := 0; CompletionTokens := 0;
                        openai.TotalTokens := 0 |} |}.

(** ** The rest of the plugin *)

(** *** Strings and errors as the plugin uses them *)

(** [err.Error()] for an error built by [fmt.Errorf("ctx: %w", cause)]. *)
Fixpoint errorText (e : error) : string :=
  match e with
  | ErrorString msg => msg
  | Wrap context cause => context +:+ ": " +:+ errorText cause
  end.

(** [strings.HasPrefix] *)
Fixpoint HasPrefix (s prefix : string) {struct prefix} : bool :=
  match prefix, s with
  | EmptyString, _ => true
  | String p prefix', String c s' => (Ascii.eqb c p && HasPrefix s' prefix')%bool
  | String _ _, EmptyString => false
  end.

(** [strings.Contains]: some suffix of [s] starts with [substr]. *)
Fixpoint Contains (s substr : string) : bool :=
  (HasPrefix s substr
   || match s with
      | EmptyString => false
      | String _ s' => Contains s' substr
      end)%bool.

(** [strings.TrimSuffix]: [s] without the trailing [suffix], or [s] itself
    when it does not end with [suffix]. *)
Fixpoint TrimSuffix (s suffix : string) : string :=
  if String.eqb s suffix then EmptyString
  else match s with
       | EmptyString => EmptyString
       | String c s' => String c (TrimSuffix s' suffix)
       end.

(** [strings.ToLower] on the bytes of an ASCII string: the letters A to Z
    are mapped to a to z.  (On other text Go maps Unicode letters; model
    names are taken to be ASCII, see [isASCII].) *)
Definition lowerByte (c : ascii) : ascii :=
  if ((65 <=? nat_of_ascii c)%nat && (nat_of_ascii c <=? 90)%nat)%bool
  then ascii_of_nat (nat_of_ascii c + 32) else c.

Fixpoint ToLower (s : string) : string :=
  match s with
  | EmptyString => EmptyString
  | String c s' => String (lowerByte c) (ToLower s')
  end.

Fixpoint isASCII (s : string) : bool :=
  match s with
  | EmptyString => true
  | String c s' => ((nat_of_ascii c <? 128)%nat && isASCII s')%bool
  end.

(** A Go function that may panic. *)
Inductive panicOr (A : Type) :=
| Panic (msg : string)
| Done (a : A).
Arguments Panic {A} msg.
Arguments Done {A} a.

(** *** Model capabilities and plugin life cycle *)


(** [ai.ModelSupports], the fields the plugin sets (the others keep their
    zero value). *)
Record ModelSupports := {
  Multiturn : bool;
  Tools : bool;
  SystemRole : bool;
  Media : bool;
}.

(** [ai.ModelInfo]; [Supports] is a pointer. *)
Record ModelInfo := {
  Label : string;
  Supports : option ModelSupports;
  Versions : list string;
}.



(** [inferModelCapabilities] *)
Definition inferModelCapabilities (modelName modelType : string)
    (supportsVision : bool) : ModelInfo :=
  let supportsTools :=
    (Contains (ToLower modelName) "gpt-4"
     || Contains (ToLower modelName) "gpt-35-turbo"
     || Contains (ToLower modelName) "gpt-3.5-turbo")%bool in
  {| Label := modelName;
     Supports := Some {| Multiturn := true; Tools := supportsTools;
                         SystemRole := true; Media := supportsVision |};
     Versions := [] |}.

(** The options a client is built from. *)
Inductive RequestOption (Credential : Type) :=
| WithBaseURL (url : string)
| WithQueryAdd (key value : string)
| WithAPIKey (key : string)
| WithTokenCredential (cred : Credential).
Arguments WithBaseURL {Credential} url.
Arguments WithQueryAdd {Credential} key value.
Arguments WithAPIKey {Credential} key.
Arguments WithTokenCredential {Credential} cred.

(** [AzureAIFoundry]: the configuration and the state of the plugin.  The
    client is represented by the options [openai.NewClient] was given; the
    mutex is not represented (calls are taken one at a time). *)
Record AzureAIFoundry (Credential : Type) := {
  Endpoint : string;
  APIKey : string;
  APIVersion : string;
  Credential_ : option Credential;
  client : list (RequestOption Credential);
  initted : bool;
}.
Arguments Endpoint {Credential} _.
Arguments APIKey {Credential} _.
Arguments APIVersion {Credential} _.
Arguments Credential_ {Credential} _.
Arguments client {Credential} _.
Arguments initted {Credential} _.


Section LifeCycle.
Context {Credential : Type}.
(** [azidentity.NewDefaultAzureCredential(nil)] *)
Context (NewDefaultAzureCredential : result Credential).

(** [Init]: the plugin after the call, or the panic. *)
Definition Init (a : AzureAIFoundry Credential) : panicOr (AzureAIFoundry Credential) :=
  if initted a then Panic "azureaifoundry: Init already called"
  else if String.eqb (Endpoint a) "" then Panic "azureaifoundry: Endpoint is required"
  else
    let endpoint := TrimSuffix (Endpoint a) "/" in
    let baseURL := endpoint +:+ "/openai/v1" in
    let opts := [WithBaseURL baseURL] in
    let opts :=
      if nonEmpty (APIVersion a)
      then opts ++ [WithQueryAdd "api-version" (APIVersion a)] else opts in
    let withAuth :=
      if nonEmpty (APIKey a) then Done (opts ++ [WithAPIKey (APIKey a)])
      else
        match Credential_ a with
        | Some cred => Done (opts ++ [WithTokenCredential cred])
        | None =>
            match NewDefaultAzureCredential with
            | Err err =>
                Panic ("azureaifoundry: failed to create default credential: "
                       +:+ errorText err)
            | Ok cred => Done (opts ++ [WithTokenCredential cred])
            end
        end in
    match withAuth with
    | Panic msg => Panic msg
    | Done opts =>
        Done {| Endpoint := Endpoint a; APIKey := APIKey a;
                APIVersion := APIVersion a; Credential_ := Credential_ a;
                client := opts; initted := true |}
    end.


End LifeCycle.

(** *** Configuration, request building and dispatch *)

Section Requests.
(** Go's [float64]; its values are only passed through. *)
Context {float64 : Type}.

(** A Go value of dynamic type, as far as the configuration bag is
    inspected: the dynamic types the plugin asserts, maps of them, and any
    other type (by its name). *)
#[warnings="-register-all"]
Inductive goValue :=
| GoNil
| GoInt (n : Z)
| GoInt64 (n : Z)
| GoFloat64 (x : float64)
| GoString (s : string)
| GoBool (b : bool)
| GoMap (m : gmap string goValue)
| GoOther (typeName : string).

(** [ai.ToolDefinition], the fields the plugin reads. *)
Record ToolDefinition := {
  ToolDefinition_Name : string;
  Description : string;
  InputSchema : jsonMap;
}.

(** [ai.ModelRequest], the fields the plugin reads. *)
Record ModelRequest := {
  Messages : list ai.Message;
  Config : goValue;
  ModelRequest_Tools : list ToolDefinition;
}.

(** [modelConfig]; a nil pointer is [None]. *)
Record modelConfig := {
  maxTokens : option Z;
  temperature : option float64;
  topP : option float64;
  toolChoice : string;
}.

(** [openai.FunctionDefinitionParam]; an omitted field is [None]. *)
Record FunctionDefinitionParam := {
  Function_Param_Name : string;
  Function_Param_Description : option string;
  Function_Param_Parameters : option (gmap string json);
}.

(** [openai.ChatCompletionNewParams], the fields the plugin sets. *)
Record ChatCompletionNewParams := {
  Params_Model : string;
  Params_Messages : list ChatCompletionMessageParamUnion;
  Params_MaxTokens : option Z;
  Params_Temperature : option float64;
  Params_TopP : option float64;
  Params_Tools : list FunctionDefinitionParam;
  Params_ToolChoice : option string;
}.

(** [configMap[key]] followed by a type assertion. *)
Definition assertInt (v : option goValue) : option Z :=
  match v with Some (GoInt n) => Some n | _ => None end.
Definition assertFloat64 (v : option goValue) : option float64 :=
  match v with Some (GoFloat64 x) => Some x | _ => None end.
Definition assertString (v : option goValue) : option string :=
  match v with Some (GoString s) => Some s | _ => None end.

(** [extractConfigFromRequest] *)
Definition extractConfigFromRequest (input : ModelRequest) : modelConfig :=
  let config := {| maxTokens := None; temperature := None; topP := None;
                   toolChoice := "" |} in
  match Config input with
  | GoMap configMap =>
      {| maxTokens := assertInt (configMap !! "maxOutputTokens");
         temperature := assertFloat64 (configMap !! "temperature");
         topP := assertFloat64 (configMap !! "topP");
         toolChoice := default "" (assertString (configMap !! "toolChoice")) |}
  | _ => config
  end.

(** The body of [buildChatCompletionParams]'s loop over the tools. *)
Definition functionTool (tool : ToolDefinition) : FunctionDefinitionParam :=
  {| Function_Param_Name := ToolDefinition_Name tool;
     Function_Param_Description :=
       if nonEmpty (Description tool) then Some (Description tool) else None;
     Function_Param_Parameters := InputSchema tool |}.

(** [buildChatCompletionParams]; it panics where the message translator
    does. *)
Definition buildChatCompletionParams (Marshal : json → result string)
    (input : ModelRequest) (modelName : string) : option ChatCompletionNewParams :=
  match convertMessagesToOpenAI Marshal (Messages input) with
  | None => None
  | Some messages =>
      let config := extractConfigFromRequest input in
      let tools :=
        match ModelRequest_Tools input with
        | [] => []
        | _ :: _ => map functionTool (ModelRequest_Tools input)
        end in
      let toolChoice :=
        match ModelRequest_Tools input with
        | [] => None
        | _ :: _ =>
            if String.eqb (toolChoice config) "auto" then Some "auto"
            else if String.eqb (toolChoice config) "required" then Some "required"
            else if String.eqb (toolChoice config) "none" then Some "none"
            else None
        end in
      Some {| Params_Model := modelName;
              Params_Messages := messages;
              Params_MaxTokens := maxTokens config;
              Params_Temperature := temperature config;
              Params_TopP := topP config;
              Params_Tools := tools;
              Params_ToolChoice := toolChoice |}
  end.

(** The chat-completion client: [Chat.Completions.New] and
    [Chat.Completions.NewStreaming]. *)
Context (New : ChatCompletionNewParams → result ChatCompletion).
Context (NewStreaming : ChatCompletionNewParams → Stream).
Context (Unmarshal : string → result jsonMap).
Context (Marshal : json → result string).
Context (range : gmap Z toolCallAccumulator → list (Z * toolCallAccumulator)).
Context {S : Type}.



End Requests.

(** *** Embeddings *)

(** [ai.Document], [ai.EmbedRequest], [ai.Embedding] and
    [ai.EmbedResponse], the fields the plugin reads and sets. *)
Record Document := {
  Document_Content : list Part;
}.

Record EmbedRequest := {
  EmbedRequest_Input : list Document;
}.

Section Embeddings.
(** Go's [float64] and [float32] and the conversion between them. *)
Context {float64 float32 : Type}.
Context (toFloat32 : float64 → float32).
(** The embeddings client, [Embeddings.New], called with the model and the
    input text; it answers with the [Embedding] vectors of its [Data], and
    acts on a state [St] of its own. *)
Context {St : Type}.
Context (EmbeddingsNew : St → string → string → St * result (list (list float64))).

(** The text of a document: the body of the loop over its parts. *)
Definition documentText (doc : Document) : string :=
  fold_left (λ inputText part,
               if IsText part then inputText +:+ Text part else inputText)
            (Document_Content doc) "".

(** The loop of [embed] over the documents. *)
Fixpoint embedLoop (modelName : string) (docs : list Document)
    (embeddings : list (list float32)) (st : St)
  : St * result (list (list float32)) :=
  match docs with
  | [] => (st, Ok embeddings)
  | doc :: docs' =>
      let inputText := documentText doc in
      if String.eqb inputText "" then embedLoop modelName docs' embeddings st
      else
        match EmbeddingsNew st modelName inputText with
        | (st', Err err) =>
            (st', Err (Wrap ("embedding generation failed for model '"
                             +:+ modelName +:+ "'") err))
        | (st', Ok data) =>
            match data with
            | [] => embedLoop modelName docs' embeddings st'
            | first :: _ =>
                embedLoop modelName docs' (embeddings ++ [map toFloat32 first]) st'
            end
        end
  end.

(** [embed]: the embeddings of the response, with the client's state. *)
Definition embed (modelName : string) (req : EmbedRequest) (st : St)
  : St * result (list (list float32)) :=
  embedLoop modelName (EmbedRequest_Input req) [] st.

End Embeddings.

(** *** Vocabulary and sample data for the rest of the plugin *)

(** The plugin with another endpoint. *)
Definition withEndpoint {Credential : Type} (a : AzureAIFoundry Credential)
    (endpoint : string) : AzureAIFoundry Credential :=
  {| Endpoint := endpoint; APIKey := APIKey a; APIVersion := APIVersion a;
     Credential_ := Credential_ a; client := client a; initted := initted a |}.

(** The client options [Init] builds, or its panic. *)
Definition initClient {Credential : Type}
    (NewDefaultAzureCredential : result Credential)
    (a : AzureAIFoundry Credential) : panicOr (list (RequestOption Credential)) :=
  match Init NewDefaultAzureCredential a with
  | Panic msg => Panic msg
  | Done a' => Done (client a')
  end.

Definition isDone {A : Type} (r : panicOr A) : bool :=
  match r with Done _ => true | Panic _ => false end.

(** The substrings of a lower-cased model name that mark tool support. *)
Definition toolMarkers : list string := ["gpt-4"; "gpt-35-turbo"; "gpt-3.5-turbo"].

(** A plugin configured with an API key, before [Init]. *)
Definition keyPlugin : AzureAIFoundry string :=
  {| Endpoint := "https://example.openai.azure.com"; APIKey := "secret";
     APIVersion := ""; Credential_ := Some "managed-identity";
     client := []; initted := false |}.

Definition noDefaultCredential : result string :=
  Err (ErrorString "no credential found").

(** The request with another configuration bag. *)
Definition withConfig {float64 : Type} (input : @ModelRequest float64)
    (config : @goValue float64) : @ModelRequest float64 :=
  {| Messages := Messages input; Config := config;
     ModelRequest_Tools := ModelRequest_Tools input |}.

(** The configuration keys the plugin reads. *)
Definition configKeys : list string :=
  ["maxOutputTokens"; "temperature"; "topP"; "toolChoice"].

(** The tool-choice literals the plugin passes on. *)
Definition toolChoices : list string := ["auto"; "required"; "none"].

(** A request with one user message, two tools and a configuration bag;
    floating-point values are written as decimal literals. *)
Definition weatherTool : ToolDefinition :=
  {| ToolDefinition_Name := "get_current_weather";
     Description := "Get current weather information";
     InputSchema := Some ∅ |}.

Definition stockTool : ToolDefinition :=
  {| ToolDefinition_Name := "get_stock_price"; Description := "";
     InputSchema := None |}.

Definition sampleConfig : gmap string (@goValue string) :=
  {[ "temperature" := GoFloat64 "0.1"; "maxOutputTokens" := GoInt 1000;
     "toolChoice" := GoString "required" ]}.

Definition sampleRequest : @ModelRequest string :=
  {| Messages := [ {| Message_Role := RoleUser;
                      Content := [NewTextPart "What is the weather in Tokyo?"] |} ];
     Config := GoMap sampleConfig;
     ModelRequest_Tools := [weatherTool; stockTool] |}.

(** The text a chunk carries: the content of the delta of its first
    choice. *)
Definition chunkText (chunk : ChatCompletionChunk) : string :=
  match Chunk_Choices chunk with
  | [] => ""
  | choice :: _ => Delta_Content (Delta choice)
  end.

(** The texts of a chunk sequence, concatenated in arrival order. *)
Definition streamText (cs : list ChatCompletionChunk) : string :=
  foldr (λ chunk rest, chunkText chunk +:+ rest) "" cs.

(** The input of the tool request an accumulated fragment stands for: the
    nil map when its buffer is empty or rejected, the decoded map
    otherwise. *)
Definition decodedArguments (Unmarshal : string → result jsonMap)
    (a : toolCallAccumulator) : jsonMap :=
  if nonEmpty (arguments a) then
    match Unmarshal (arguments a) with Ok args => args | Err _ => None end
  else None.

(** The tool request of a named fragment. *)
Definition toolRequestOf (Unmarshal : string → result jsonMap)
    (entry : Z * toolCallAccumulator) : option Part :=
  if String.eqb (name entry.2) "" then None
  else Some (NewToolRequestPart
               {| ToolRequest_Name := name entry.2;
                  ToolRequest_Input := anyOfMap (decodedArguments Unmarshal entry.2) |}).

(** The tool request of a wire tool call that has an id and arguments the
    decoder accepts. *)
Definition responsePart (Unmarshal : string → result jsonMap)
    (toolCall : ChatCompletionMessageToolCallUnion) : option Part :=
  if nonEmpty (Union_ID toolCall) then
    match Unmarshal (Union_Function_Arguments toolCall) with
    | Ok args =>
        Some (NewToolRequestPart
                {| ToolRequest_Name := Union_Function_Name toolCall;
                   ToolRequest_Input := anyOfMap args |})
    | Err _ => None
    end
  else None.

(** The accumulator a first fragment creates. *)
Definition freshMap : gmap Z toolCallAccumulator := ∅.

Definition idThenLate : list ChatCompletionChunkChoiceDeltaToolCall :=
  [ {| Index := 0; Delta_ID := "call_abc"; Delta_Function_Name := "foo";
       Delta_Function_Arguments := "" |};
    {| Index := 0; Delta_ID := "call_xyz"; Delta_Function_Name := "";
       Delta_Function_Arguments := "{}" |} ].

(** A part whose tool request or tool response pointer is set when its
    kind says it holds one (as the constructors build it). *)
Definition wellFormedPart (part : Part) : bool :=
  ((negb (IsToolRequest part) || bool_decide (is_Some (Part_ToolRequest part)))
   && (negb (IsToolResponse part) || bool_decide (is_Some (Part_ToolResponse part))))%bool.

Definition wellFormedMessages (messages : list ai.Message) : Prop :=
  Forall (λ msg, Forall (λ part, wellFormedPart part = true) (Content msg)) messages.

(** The text of a model-role message: its Text parts, concatenated. *)
Definition assistantText (parts : list Part) : string :=
  foldr (λ part rest, if IsText part then Text part +:+ rest else rest) "" parts.

(** The wire tool call of a part of a model-role message: none for a Text
    part, for a part that is no tool request, and for a tool request whose
    input the encoder rejects. *)
Definition assistantCall (Marshal : json → result string) (part : Part)
  : option ChatCompletionMessageFunctionToolCallParam :=
  if IsText part then None
  else if IsToolRequest part then
    match Part_ToolRequest part with
    | Some toolReq =>
        match Marshal (ToolRequest_Input toolReq) with
        | Ok argsJSON =>
            Some {| Param_ID := callID (ToolRequest_Name toolReq);
                    Param_Type := "function";
                    Param_Function_Name := ToolRequest_Name toolReq;
                    Param_Function_Arguments := argsJSON |}
        | Err _ => None
        end
    | None => None
    end
  else None.

(** The wire message of a part of a tool-role message: none for a part
    that is no tool response, and for a tool response whose output the
    encoder rejects. *)
Definition toolMessage (Marshal : json → result string) (part : Part)
  : option ChatCompletionMessageParamUnion :=
  if IsToolResponse part then
    match Part_ToolResponse part with
    | Some toolResp =>
        match Marshal (ToolResponse_Output toolResp) with
        | Ok outputJSON => Some (OfTool outputJSON (callID (ToolResponse_Name toolResp)))
        | Err _ => None
        end
    | None => None
    end
  else None.

(** The model-role message that carries the content of a response back
    into a conversation. *)
Definition replyMessage (resp : ModelResponse) : ai.Message :=
  {| Message_Role := RoleModel; Content := Content (ModelResponse_Message resp) |}.

(** An encoder that only knows the null value and the empty object. *)
Definition smallMarshal (v : json) : result string :=
  match v with
  | JNull => Ok "null"
  | JObject fields =>
      if bool_decide (fields = ∅) then Ok "{}"
      else Err (ErrorString "json: unsupported value")
  | _ => Err (ErrorString "json: unsupported value")
  end.

(** A model-role message asking for two tools, and the tool-role message
    answering them. *)
Definition toolRequestMessage : ai.Message :=
  {| Message_Role := RoleModel;
     Content := [ NewTextPart "Let me ";
                  NewToolRequestPart {| ToolRequest_Name := "get_current_weather";
                                        ToolRequest_Input := JObject ∅ |};
                  NewTextPart "check.";
                  NewToolRequestPart {| ToolRequest_Name := "get_stock_price";
                                        ToolRequest_Input := JBool true |} ] |}.

Definition toolResponseMessage : ai.Message :=
  {| Message_Role := RoleTool;
     Content := [ NewToolResponsePart {| ToolResponse_Name := "get_current_weather";
                                         ToolResponse_Output := JObject ∅ |};
                  NewTextPart "ignored";
                  NewToolResponsePart {| ToolResponse_Name := "get_stock_price";
                                         ToolResponse_Output := JNull |} ] |}.

(** A response with a text and one well-formed tool call. *)
Definition toolCallResponse : ChatCompletion :=
  {| Choices :=
       [ {| FinishReason := "tool_calls";
            Message :=
              {| Message_Content := "Checking.";
                 Message_ToolCalls :=
                   [ {| Union_ID := "call_9f3a"; Union_Function_Name := "bar";
                        Union_Function_Arguments := "{}";
                        Union_Type := "function" |} ] |} |} ];
     openai.Usage := {| PromptTokens := 5; CompletionTokens := 3;
                        openai.TotalTokens := 8 |} |}.

(** Documents for the embedder: a text in two parts, an image, a text. *)
Definition sampleDocuments : list Document :=
  [ {| Document_Content := [NewTextPart "Hello, "; NewTextPart "world"] |};
    {| Document_Content := [NewMediaPart "image/png" "data:image/png;base64,AAAA"] |};
    {| Document_Content := [NewTextPart "Goodbye"] |} ].

(** An embeddings client that records the texts it is sent and answers
    with the length of the text as a one-dimensional vector. *)
Definition lengthEmbedder (sent : list string) (model text : string)
  : list string * result (list (list nat)) :=
  (sent ++ [text], Ok [[String.length text]]).

(** An embeddings client that fails on its [n]-th call. *)
Definition failingEmbedder (n : nat) (calls : nat) (model text : string)
  : nat * result (list (list nat)) :=
  (Datatypes.S calls,
   if (Datatypes.S calls =? n)%nat then Err (ErrorString "429 Too Many Requests")
   else Ok [[String.length text]]).

(** A chat client that always answers with the same response, and one
    that always fails. *)
Definition answering (resp : ChatCompletion)
    (params : @ChatCompletionNewParams string) : result ChatCompletion :=
  Ok resp.



(** * Properties *)

(** ** Integers and strings *)

Lemma int_in_range (x : Z) : - 2 ^ 63 ≤ x < 2 ^ 63 → int x = x.
Proof.
  intros Hx. unfold int, intSize.
  change (2 ^ (64 - 1)) with (2 ^ 63).
  rewrite Z.mod_small; lia.
Qed.

Lemma nonEmpty_true (s : string) : nonEmpty s = true ↔ s ≠ "".
Proof.
  unfold nonEmpty. rewrite negb_true_iff. apply String.eqb_neq.
Qed.

Lemma nonEmpty_false (s : string) : nonEmpty s = false ↔ s = "".
Proof.
  unfold nonEmpty. rewrite negb_false_iff. apply String.eqb_eq.
Qed.

Lemma length_pos_nonEmpty (s : string) :
  (0 <? String.length s)%nat = nonEmpty s.
Proof. destruct s; reflexivity. Qed.

(** ** The finish-reason mapper *)

(** C5.  [convertFinishReason] maps "stop" to stop, "length" to length,
    "content_filter" to blocked, "tool_calls" and "function_call" to stop,
    and every other string to other; no string is mapped to unknown. *)
Theorem convertFinishReason_closed_mapping :
  convertFinishReason "stop" = FinishReasonStop
  ∧ convertFinishReason "length" = FinishReasonLength
  ∧ convertFinishReason "content_filter" = FinishReasonBlocked
  ∧ convertFinishReason "tool_calls" = FinishReasonStop
  ∧ convertFinishReason "function_call" = FinishReasonStop
  ∧ (∀ reason : string,
       reason ≠ "stop" → reason ≠ "length" → reason ≠ "content_filter" →
       reason ≠ "tool_calls" → reason ≠ "function_call" →
       convertFinishReason reason = FinishReasonOther)
  ∧ (∀ reason : string, convertFinishReason reason ≠ FinishReasonUnknown).
Proof.
  repeat split; try reflexivity.
  - intros reason H1 H2 H3 H4 H5. unfold convertFinishReason.
    apply String.eqb_neq in H1, H2, H3, H4, H5.
    by rewrite H1, H2, H3, H4, H5.
  - intros reason. unfold convertFinishReason.
    repeat (case_match; try discriminate).
Qed.

Lemma convertFinishReason_closed_mapping_witness :
  convertFinishReason "anything_else" = FinishReasonOther.
Proof.
  apply (proj1 (proj2 (proj2 (proj2 (proj2 (proj2
           convertFinishReason_closed_mapping)))))); discriminate.
Defined.

(** ** The synchronous assembler *)

Section Sync.
Context (Unmarshal : string → result jsonMap).

(** C6.  A wire response with zero choices is converted (there is no error
    result) to a response whose message has role model and no parts, and
    whose finish reason is unknown. *)
Theorem convertResponse_zero_choices (resp : ChatCompletion) :
  Choices resp = [] →
  Message_Role (ModelResponse_Message (convertResponse Unmarshal resp)) = RoleModel
  ∧ Content (ModelResponse_Message (convertResponse Unmarshal resp)) = []
  ∧ ModelResponse_FinishReason (convertResponse Unmarshal resp) = FinishReasonUnknown.
Proof.
  intros Hzero. unfold convertResponse. rewrite Hzero. done.
Qed.

(** C10.  When the prompt-token count of the wire response is zero or
    negative the usage of the response is all-zero, whatever the other two
    counts are; a non-zero usage is returned only when the prompt-token
    count is strictly positive, and it is then the three wire counts
    converted to [int] (the counts themselves when they fit). *)
Theorem usage_copied_only_when_prompt_positive (resp : ChatCompletion) :
  (PromptTokens (openai.Usage resp) ≤ 0 →
     usageCounters (convertResponse Unmarshal resp) = (0, 0, 0))
  ∧ (usageCounters (convertResponse Unmarshal resp) ≠ (0, 0, 0) →
     0 < PromptTokens (openai.Usage resp)
     ∧ Choices resp ≠ []
     ∧ usageCounters (convertResponse Unmarshal resp)
       = (int (PromptTokens (openai.Usage resp)),
          int (CompletionTokens (openai.Usage resp)),
          int (openai.TotalTokens (openai.Usage resp))))
  ∧ (0 < PromptTokens (openai.Usage resp) → Choices resp ≠ [] →
     PromptTokens (openai.Usage resp) < 2 ^ 63 →
     - 2 ^ 63 ≤ CompletionTokens (openai.Usage resp) < 2 ^ 63 →
     - 2 ^ 63 ≤ openai.TotalTokens (openai.Usage resp) < 2 ^ 63 →
     usageCounters (convertResponse Unmarshal resp)
     = (PromptTokens (openai.Usage resp),
        CompletionTokens (openai.Usage resp),
        openai.TotalTokens (openai.Usage resp))).
Proof.
  unfold convertResponse, usageCounters.
  destruct (Choices resp) as [|choice others] eqn:Hch; cbn.
  - repeat split; intros; done.
  - destruct (0 <? PromptTokens (openai.Usage resp)) eqn:Hpos; cbn.
    + apply Z.ltb_lt in Hpos. repeat split; try done; try lia.
      intros _ _ Hp Hc Ht. rewrite !int_in_range; [done | lia..].
    + apply Z.ltb_ge in Hpos. repeat split; try done; lia.
Qed.

End Sync.

Lemma convertResponse_zero_choices_witness :
  Content (ModelResponse_Message (convertResponse JSONRef.Unmarshal emptyResponse)) = []
  ∧ ModelResponse_FinishReason (convertResponse JSONRef.Unmarshal emptyResponse)
    = FinishReasonUnknown.
Proof.
  pose proof (convertResponse_zero_choices JSONRef.Unmarshal emptyResponse eq_refl)
    as (_ & Hparts & Hfinish).
  exact (conj Hparts Hfinish).
Defined.

Lemma usage_copied_only_when_prompt_positive_witness :
  usageCounters
    (convertResponse JSONRef.Unmarshal (wireResponse "hi" [] "stop" 0 7 7))
  = (0, 0, 0).
Proof.
  apply (proj1 (usage_copied_only_when_prompt_positive JSONRef.Unmarshal
                  (wireResponse "hi" [] "stop" 0 7 7))).
  cbn. lia.
Defined.

(** ** Streaming accumulation *)

Lemma append_empty_l (s : string) : "" +:+ s = s.
Proof. reflexivity. Qed.

Lemma append_cons (c : ascii) (s1 s2 : string) :
  String c s1 +:+ s2 = String c (s1 +:+ s2).
Proof. reflexivity. Qed.

Lemma append_empty_r (s : string) : s +:+ "" = s.
Proof.
  induction s as [|c s IH]; [done|]. by rewrite append_cons, IH.
Qed.

Lemma append_assoc' (s1 s2 s3 : string) :
  (s1 +:+ s2) +:+ s3 = s1 +:+ (s2 +:+ s3).
Proof.
  induction s1 as [|c s1 IH]; [done|]. by rewrite !append_cons, IH.
Qed.

(** A fragment leaves the entries at other indices alone. *)
Lemma accumulateToolCall_other (m : gmap Z toolCallAccumulator)
    (d : ChatCompletionChunkChoiceDeltaToolCall) (i : Z) :
  int (Index d) ≠ i → accumulateToolCall m d !! i = m !! i.
Proof.
  intros Hne. unfold accumulateToolCall.
  repeat case_match;
    rewrite ?lookup_alter_ne, ?lookup_insert_ne by done; done.
Qed.

(** What a fragment leaves at its own index. *)
Lemma accumulateToolCall_same (m : gmap Z toolCallAccumulator)
    (d : ChatCompletionChunkChoiceDeltaToolCall) :
  accumulateToolCall m d !! int (Index d)
  = Some {| id := id (accumulatorFor m d);
            name := if nonEmpty (Delta_Function_Name d)
                    then Delta_Function_Name d else name (accumulatorFor m d);
            arguments := arguments (accumulatorFor m d)
                         +:+ Delta_Function_Arguments d |}.
Proof.
  unfold accumulateToolCall, accumulatorFor.
  destruct (m !! int (Index d)) as [a|] eqn:Hm; cbn;
    destruct (nonEmpty (Delta_Function_Name d)) eqn:Hn;
    destruct (nonEmpty (Delta_Function_Arguments d)) eqn:Ha;
    rewrite ?lookup_alter_eq, ?lookup_insert_eq, ?Hm; cbn;
    rewrite ?append_empty_l;
    try (apply nonEmpty_false in Ha; rewrite Ha, ?append_empty_r);
    try done.
  all: destruct a; done.
Qed.

Section Streaming.
Context {S : Type}.
Implicit Types (cb : option (S → ModelResponseChunk → S * option error)).
Implicit Types (cs : list ChatCompletionChunk) (v : streamVars) (s : S).

Lemma streamLoop_app cb cs1 cs2 v s :
  streamLoop cb (cs1 ++ cs2) v s
  = match returned (streamLoop cb cs1 v s) with
    | Some _ => streamLoop cb cs1 v s
    | None =>
        streamLoop cb cs2 (vars (streamLoop cb cs1 v s)) (sink (streamLoop cb cs1 v s))
    end.
Proof.
  revert v s. induction cs1 as [|chunk cs1 IH]; intros v s; cbn; [done|].
  destruct (returned (processChunk cb v s chunk)) as [err|] eqn:Hret.
  - by rewrite Hret.
  - apply IH.
Qed.

(** A chunk that is processed without a return adds exactly its fragments. *)
Lemma processChunk_toolCallsMap cb v s chunk :
  returned (processChunk cb v s chunk) = None →
  toolCallsMap (vars (processChunk cb v s chunk))
  = fold_left accumulateToolCall (chunkFragments chunk) (toolCallsMap v).
Proof.
  unfold processChunk, chunkFragments.
  destruct (Chunk_Choices chunk) as [|choice others]; cbn; [done|].
  destruct (nonEmpty (Delta_Content (Delta choice))); cbn; [|done].
  destruct cb as [f|]; cbn; [|done].
  destruct (f s _) as [s' [err|]]; cbn; [discriminate | done].
Qed.

(** A chunk on which the loop returns adds no fragment. *)
Lemma processChunk_returned_toolCallsMap cb v s chunk err :
  returned (processChunk cb v s chunk) = Some err →
  toolCallsMap (vars (processChunk cb v s chunk)) = toolCallsMap v.
Proof.
  unfold processChunk.
  destruct (Chunk_Choices chunk) as [|choice others]; cbn; [done|].
  destruct (nonEmpty (Delta_Content (Delta choice))); cbn; [|done].
  destruct cb as [f|]; cbn; [|done].
  destruct (f s _) as [s' [err'|]]; cbn; done.
Qed.

(** Whether or not the loop is left early, the fragment map it ends with
    is the one accumulated from the chunks it processed in full. *)
Lemma streamLoop_processed cb cs v s :
  ∃ processed,
    processed `prefix_of` cs
    ∧ (returned (streamLoop cb cs v s) = None → processed = cs)
    ∧ toolCallsMap (vars (streamLoop cb cs v s))
      = fold_left accumulateToolCall (fragmentsOf processed) (toolCallsMap v).
Proof.
  revert v s. induction cs as [|chunk cs IH]; intros v s; cbn.
  - exists []. done.
  - destruct (returned (processChunk cb v s chunk)) as [err|] eqn:Hret.
    + exists []. rewrite Hret. split; [apply prefix_nil|]. split; [done|].
      by rewrite (processChunk_returned_toolCallsMap _ _ _ _ _ Hret).
    + destruct (IH (vars (processChunk cb v s chunk))
                   (sink (processChunk cb v s chunk)))
        as (processed & Hprefix & Hall & Hmap).
      exists (chunk :: processed). split; [by apply prefix_cons|].
      split; [intros Hnone; by rewrite Hall|].
      rewrite Hmap, processChunk_toolCallsMap by done.
      unfold fragmentsOf. cbn. by rewrite fold_left_app.
Qed.

End Streaming.

(** *** The stored name *)

Lemma accumulateToolCall_name (m : gmap Z toolCallAccumulator)
    (d : ChatCompletionChunkChoiceDeltaToolCall) (i : Z) (a : toolCallAccumulator) :
  m !! i = Some a →
  name <$> accumulateToolCall m d !! i
  = Some (if decide (int (Index d) = i ∧ Delta_Function_Name d ≠ "")
          then Delta_Function_Name d else name a).
Proof.
  intros Hm. destruct (decide (int (Index d) = i)) as [<-|Hne].
  - rewrite accumulateToolCall_same. unfold accumulatorFor. rewrite Hm. cbn.
    destruct (nonEmpty (Delta_Function_Name d)) eqn:Hn.
    + apply nonEmpty_true in Hn. by rewrite decide_True.
    + apply nonEmpty_false in Hn. rewrite decide_False; [done | tauto].
  - rewrite accumulateToolCall_other, Hm by done. cbn.
    rewrite decide_False; [done | tauto].
Qed.

Lemma fold_accumulate_name (fs : list ChatCompletionChunkChoiceDeltaToolCall)
    (m : gmap Z toolCallAccumulator) (i : Z) (a : toolCallAccumulator) :
  m !! i = Some a →
  ∃ a', fold_left accumulateToolCall fs m !! i = Some a'
    ∧ (name a' = name a
       ∨ name a' ≠ ""
         ∧ ∃ d, d ∈ fs ∧ int (Index d) = i ∧ Delta_Function_Name d = name a')
    ∧ ((∀ d, d ∈ fs → int (Index d) = i → Delta_Function_Name d = "") →
       name a' = name a).
Proof.
  revert m a. induction fs as [|d fs IH]; intros m a Hm; cbn.
  - exists a. auto.
  - pose proof (accumulateToolCall_name m d i a Hm) as Hstep.
    destruct (accumulateToolCall m d !! i) as [a1|] eqn:Hm1; [|discriminate].
    cbn in Hstep. injection Hstep as Hname1.
    destruct (IH _ _ Hm1) as (a' & Hlook & Hcases & Hquiet).
    exists a'. split; [done|]. split.
    + destruct Hcases as [Hsame | (Hne & d' & Hin & Hidx & Hd')].
      * case_decide as Hd; [|left; congruence].
        right. destruct Hd as [Hidx Hnm]. split; [congruence|].
        exists d. repeat split; [left | done | congruence].
      * right. split; [done|]. exists d'. repeat split; [by right | done..].
    + intros Hall. rewrite Hquiet.
      * case_decide as Hd; [|done].
        destruct Hd as [Hidx Hnm]. exfalso. apply Hnm, Hall; [left | done].
      * intros d' Hin. apply Hall. by right.
Qed.

(** C4, as amended.  A stored name is replaced whenever a later fragment
    at the same index carries a non-empty name, and only then: a fragment
    sets the name at its index to its own name if that is non-empty, and
    changes no name otherwise; so after a delta is processed the name
    stored at an index is unchanged or is the non-empty name of one of the
    delta's fragments at that index, and it is unchanged when none of them
    carries a name. *)
Theorem stored_name_follows_last_named_fragment {S : Type}
    (cb : option (S → ModelResponseChunk → S * option error))
    (v : streamVars) (s : S) (chunk : ChatCompletionChunk)
    (i : Z) (a : toolCallAccumulator) :
  toolCallsMap v !! i = Some a →
  (∀ d : ChatCompletionChunkChoiceDeltaToolCall,
     name <$> accumulateToolCall (toolCallsMap v) d !! i
     = Some (if decide (int (Index d) = i ∧ Delta_Function_Name d ≠ "")
             then Delta_Function_Name d else name a))
  ∧ ∃ a', toolCallsMap (vars (processChunk cb v s chunk)) !! i = Some a'
      ∧ (name a' = name a
         ∨ name a' ≠ ""
           ∧ ∃ d, d ∈ chunkFragments chunk ∧ int (Index d) = i
                  ∧ Delta_Function_Name d = name a')
      ∧ ((∀ d, d ∈ chunkFragments chunk → int (Index d) = i →
               Delta_Function_Name d = "") →
         name a' = name a).
Proof.
  intros Hm. split; [intros d; by apply accumulateToolCall_name|].
  destruct (returned (processChunk cb v s chunk)) as [err|] eqn:Hret.
  - rewrite (processChunk_returned_toolCallsMap _ _ _ _ _ Hret).
    exists a. auto.
  - rewrite (processChunk_toolCallsMap _ _ _ _ Hret).
    by apply fold_accumulate_name.
Qed.

Lemma stored_name_follows_last_named_fragment_witness :
  ∃ a', toolCallsMap
          (vars (processChunk (S:=nat) None fooOpenedVars 0%nat
                   (deltaChunk "" [fragment 0 "" "}"]))) !! 0 = Some a'
        ∧ name a' = "foo".
Proof.
  assert (Hm : toolCallsMap fooOpenedVars !! 0 = Some fooOpened)
    by (vm_compute; reflexivity).
  destruct (stored_name_follows_last_named_fragment (S:=nat) None
              fooOpenedVars 0%nat (deltaChunk "" [fragment 0 "" "}"]) 0
              fooOpened Hm)
    as (_ & a' & Hlook & _ & Hquiet).
  exists a'. split; [exact Hlook|]. apply Hquiet.
  intros d Hd _.
  apply list_elem_of_singleton in Hd. by subst d.
Defined.

(** C4, counterexample to the statement as written: the name "foo" stored
    at index 0 is replaced by "bar" when a later fragment at index 0
    carries that name. *)
Lemma stored_name_overwritten :
  let first := deltaChunk "" [fragment 0 "foo" ""] in
  let second := deltaChunk "" [fragment 0 "bar" ""] in
  let before := vars (processChunk (S:=unit) None initialVars () first) in
  let after := vars (processChunk (S:=unit) None before () second) in
  name <$> toolCallsMap before !! 0 = Some "foo"
  ∧ name <$> toolCallsMap after !! 0 = Some "bar"
  ∧ ¬ (name <$> toolCallsMap before !! 0 = Some ""
       ∨ name <$> toolCallsMap after !! 0 = name <$> toolCallsMap before !! 0).
Proof.
  cbv zeta.
  assert (Hb : name <$> toolCallsMap (vars (processChunk (S:=unit) None initialVars ()
                 (deltaChunk "" [fragment 0 "foo" ""]))) !! 0 = Some "foo")
    by (vm_compute; reflexivity).
  assert (Ha : name <$> toolCallsMap (vars (processChunk (S:=unit) None
                 (vars (processChunk (S:=unit) None initialVars ()
                          (deltaChunk "" [fragment 0 "foo" ""])))
                 () (deltaChunk "" [fragment 0 "bar" ""]))) !! 0 = Some "bar")
    by (vm_compute; reflexivity).
  rewrite Ha, Hb. repeat split. intros [H|H]; discriminate.
Qed.

(** *** A failing callback *)

Section SinkFailure.
Context (Unmarshal : string → result jsonMap).
Context (range : gmap Z toolCallAccumulator → list (Z * toolCallAccumulator)).
Context {S : Type}.
Implicit Types (cb : S → ModelResponseChunk → S * option error).

Lemma processChunk_sink_error cb v s chunk choice others s' err :
  Chunk_Choices chunk = choice :: others →
  Delta_Content (Delta choice) ≠ "" →
  cb s {| Chunk_Content := [NewTextPart (Delta_Content (Delta choice))] |}
  = (s', Some err) →
  processChunk (Some cb) v s chunk
  = {| vars := {| fullText := fullText v +:+ Delta_Content (Delta choice);
                  toolCallsMap := toolCallsMap v |};
       sink := s';
       returned := Some (Wrap "streaming callback error" err) |}.
Proof.
  intros Hchoice Htext Hcb. unfold processChunk. rewrite Hchoice.
  apply nonEmpty_true in Htext. rewrite Htext. cbn. by rewrite Hcb.
Qed.

(** C3.  When the callback reports an error on the text of a delta, the
    loop is left at once: the call returns that error, wrapped, and no
    response, whatever chunks remain and whatever the transport would have
    reported; at that point the text buffer holds the text up to and
    including the failing delta, the fragment map is the one accumulated
    before the failing delta (its own fragments are not added), and the
    callback has not been invoked again. *)
Theorem sink_error_aborts_stream cb
    (pre rest : list ChatCompletionChunk) (chunk : ChatCompletionChunk)
    (choice : ChatCompletionChunkChoice) (others : list ChatCompletionChunkChoice)
    (transport : option error) (s0 s' : S) (err : error) :
  returned (streamLoop (Some cb) pre initialVars s0) = None →
  Chunk_Choices chunk = choice :: others →
  Delta_Content (Delta choice) ≠ "" →
  cb (sink (streamLoop (Some cb) pre initialVars s0))
     {| Chunk_Content := [NewTextPart (Delta_Content (Delta choice))] |}
  = (s', Some err) →
  generateTextStream Unmarshal range
    {| chunks := pre ++ chunk :: rest; streamErr := transport |} (Some cb) s0
  = (s', Err (Wrap "streaming callback error" err))
  ∧ streamLoop (Some cb) (pre ++ chunk :: rest) initialVars s0
    = {| vars :=
           {| fullText := fullText (vars (streamLoop (Some cb) pre initialVars s0))
                          +:+ Delta_Content (Delta choice);
              toolCallsMap :=
                toolCallsMap (vars (streamLoop (Some cb) pre initialVars s0)) |};
         sink := s';
         returned := Some (Wrap "streaming callback error" err) |}.
Proof.
  intros Hpre Hchoice Htext Hcb.
  assert (Hloop : streamLoop (Some cb) (pre ++ chunk :: rest) initialVars s0
    = {| vars :=
           {| fullText := fullText (vars (streamLoop (Some cb) pre initialVars s0))
                          +:+ Delta_Content (Delta choice);
              toolCallsMap :=
                toolCallsMap (vars (streamLoop (Some cb) pre initialVars s0)) |};
         sink := s';
         returned := Some (Wrap "streaming callback error" err) |}).
  { rewrite streamLoop_app, Hpre. cbn.
    by rewrite (processChunk_sink_error _ _ _ _ _ _ _ _ Hchoice Htext Hcb). }
  split; [|exact Hloop].
  unfold generateTextStream. cbn.
  change {| fullText := ""; toolCallsMap := ∅ |} with initialVars.
  by rewrite Hloop.
Qed.

End SinkFailure.

Lemma sink_error_aborts_stream_witness :
  generateTextStream JSONRef.Unmarshal map_to_list
    {| chunks := [deltaChunk "He" []] ++
                 deltaChunk "llo" [fragment 0 "foo" "{}"] ::
                 [deltaChunk " world" [fragment 1 "bar" "{}"]];
       streamErr := None |}
    (Some (failOnCall 2)) 0%nat
  = (2%nat, Err (Wrap "streaming callback error" (ErrorString "sink closed"))).
Proof.
  refine (proj1 (sink_error_aborts_stream JSONRef.Unmarshal map_to_list
                   (failOnCall 2) [deltaChunk "He" []]
                   [deltaChunk " world" [fragment 1 "bar" "{}"]]
                   (deltaChunk "llo" [fragment 0 "foo" "{}"])
                   _ [] None 0%nat 2%nat (ErrorString "sink closed")
                   _ eq_refl _ _)).
  - vm_compute. reflexivity.
  - discriminate.
  - vm_compute. reflexivity.
Defined.

(** ** Assembly of the accumulated tool calls *)

Section Assembly.
Context (Unmarshal : string → result jsonMap).
Context (range : gmap Z toolCallAccumulator → list (Z * toolCallAccumulator)).
Context (Hrange : rangeOrder range).
Context {S : Type}.

Lemma parseFails_dec (a : toolCallAccumulator) :
  parseFails Unmarshal a ∨ ¬ parseFails Unmarshal a.
Proof.
  unfold parseFails.
  destruct (decide (name a = "")); [right; tauto|].
  destruct (decide (arguments a = "")); [right; tauto|].
  destruct (is_ok (Unmarshal (arguments a))); [right; intros (_&_&?); done|].
  by left.
Qed.

Lemma toolCallPart_fails (parts : list Part) (entry : Z * toolCallAccumulator) :
  parseFails Unmarshal entry.2 →
  ∃ err,
    Unmarshal (arguments entry.2) = Err err
    ∧ toolCallPart Unmarshal parts entry
      = Err (Wrap ("failed to unmarshal tool arguments for '"
                   +:+ name entry.2 +:+ "'") err).
Proof.
  intros (Hname & Hargs & Hbad). unfold toolCallPart. cbv zeta.
  apply String.eqb_neq in Hname. rewrite Hname.
  apply nonEmpty_true in Hargs. rewrite length_pos_nonEmpty, Hargs.
  destruct (Unmarshal (arguments entry.2)) as [args|err]; [discriminate|].
  by exists err.
Qed.

Lemma toolCallPart_passes (parts : list Part) (entry : Z * toolCallAccumulator) :
  ¬ parseFails Unmarshal entry.2 →
  ∃ added, toolCallPart Unmarshal parts entry = Ok (parts ++ added).
Proof.
  intros Hgood. unfold toolCallPart, parseFails in *. cbv zeta.
  destruct (String.eqb_spec (name entry.2) "") as [Hname|Hname].
  { exists []. by rewrite app_nil_r. }
  rewrite length_pos_nonEmpty.
  destruct (nonEmpty (arguments entry.2)) eqn:Hargs.
  - apply nonEmpty_true in Hargs.
    destruct (Unmarshal (arguments entry.2)) as [args|err] eqn:Hparse.
    + eauto.
    + exfalso. by apply Hgood.
  - eauto.
Qed.

Lemma toolCallPart_parsed (parts : list Part) (i : Z) (a : toolCallAccumulator)
    (args : jsonMap) :
  name a ≠ "" → arguments a ≠ "" → Unmarshal (arguments a) = Ok args →
  toolCallPart Unmarshal parts (i, a)
  = Ok (parts ++ [NewToolRequestPart {| ToolRequest_Name := name a;
                                        ToolRequest_Input := anyOfMap args |}]).
Proof.
  intros Hname Hargs Hparse. unfold toolCallPart. cbv zeta. cbn [snd].
  apply String.eqb_neq in Hname. rewrite Hname.
  apply nonEmpty_true in Hargs. by rewrite length_pos_nonEmpty, Hargs, Hparse.
Qed.

(** A fragment whose name never arrived is skipped, whatever its buffer. *)
Lemma toolCallPart_nameless (parts : list Part) (i : Z) (a : toolCallAccumulator) :
  name a = "" → toolCallPart Unmarshal parts (i, a) = Ok parts.
Proof.
  intros Hname. unfold toolCallPart. cbv zeta. cbn [snd]. by rewrite Hname.
Qed.

Lemma forRangeErr_fails (entries : list (Z * toolCallAccumulator))
    (parts : list Part) :
  Exists (λ entry, parseFails Unmarshal entry.2) entries →
  is_ok (forRangeErr (toolCallPart Unmarshal) entries parts) = false.
Proof.
  revert parts. induction entries as [|entry entries IH]; intros parts Hex.
  - inversion Hex.
  - cbn. destruct (parseFails_dec entry.2) as [Hbad|Hgood].
    + destruct (toolCallPart_fails parts entry Hbad) as (err & _ & ->). done.
    + destruct (toolCallPart_passes parts entry Hgood) as (added & ->).
      apply IH. inversion Hex; [contradiction | done].
Qed.

Lemma forRangeErr_passes (entries : list (Z * toolCallAccumulator))
    (parts : list Part) :
  Forall (λ entry, ¬ parseFails Unmarshal entry.2) entries →
  ∃ added, forRangeErr (toolCallPart Unmarshal) entries parts = Ok (parts ++ added).
Proof.
  revert parts. induction entries as [|entry entries IH]; intros parts Hall; cbn.
  - exists []. by rewrite app_nil_r.
  - inversion_clear Hall as [|? ? Hentry Hrest].
    destruct (toolCallPart_passes parts entry Hentry) as (added & ->).
    destruct (IH (parts ++ added) Hrest) as (added' & ->).
    exists (added ++ added'). by rewrite app_assoc.
Qed.

Lemma range_visits (m : gmap Z toolCallAccumulator) (i : Z) (a : toolCallAccumulator) :
  (i, a) ∈ range m ↔ m !! i = Some a.
Proof. by rewrite (Hrange m), elem_of_map_to_list. Qed.

Lemma convertToolCallsToParts_fails (m : gmap Z toolCallAccumulator)
    (i : Z) (a : toolCallAccumulator) :
  m !! i = Some a → parseFails Unmarshal a →
  is_ok (convertToolCallsToParts Unmarshal range m) = false.
Proof.
  intros Hm Hbad. apply forRangeErr_fails, Exists_exists.
  exists (i, a). split; [by apply range_visits | done].
Qed.

Lemma convertToolCallsToParts_passes (m : gmap Z toolCallAccumulator) :
  (∀ i a, m !! i = Some a → ¬ parseFails Unmarshal a) →
  ∃ parts, convertToolCallsToParts Unmarshal range m = Ok parts.
Proof.
  intros Hgood.
  destruct (forRangeErr_passes (range m) []) as (added & Hadded).
  - apply Forall_forall. intros [i a] Hin. apply (Hgood i a), range_visits, Hin.
  - by exists added.
Qed.

(** A wire tool call whose arguments the decoder rejects adds no part. *)
Lemma responseToolCall_dropped (content : list Part)
    (toolCall : ChatCompletionMessageToolCallUnion) :
  is_ok (Unmarshal (Union_Function_Arguments toolCall)) = false →
  responseToolCall Unmarshal content toolCall = content.
Proof.
  intros Hbad. unfold responseToolCall. cbn.
  destruct (nonEmpty (Union_ID toolCall)); [|done].
  by destruct (Unmarshal (Union_Function_Arguments toolCall)).
Qed.

(** C1.  A tool call whose argument text the decoder rejects is handled
    differently by the two paths.  [convertResponse] drops it: the response
    is the one the same wire response gives without that tool call, so the
    text and the other tool requests are returned.  In the streaming path
    the buffer of an accumulated fragment is parsed when the fragment has a
    name and the buffer is not empty; if the decoder then rejects it,
    [convertToolCallsToParts] returns an error, in every visiting order of
    the map, and [generateTextStream] returns an error and no response. *)
Theorem tool_argument_decode_failure_asymmetry :
  (∀ (resp : ChatCompletion) (choice : ChatCompletionChoice)
     (others : list ChatCompletionChoice)
     (pre post : list ChatCompletionMessageToolCallUnion)
     (toolCall : ChatCompletionMessageToolCallUnion),
     Choices resp = choice :: others →
     Message_ToolCalls (Message choice) = pre ++ toolCall :: post →
     is_ok (Unmarshal (Union_Function_Arguments toolCall)) = false →
     convertResponse Unmarshal resp
     = convertResponse Unmarshal (withToolCalls resp (pre ++ post)))
  ∧ (∀ (m : gmap Z toolCallAccumulator) (i : Z) (a : toolCallAccumulator),
       m !! i = Some a → parseFails Unmarshal a →
       is_ok (convertToolCallsToParts Unmarshal range m) = false)
  ∧ (∀ (stream : Stream) (cb : option (S → ModelResponseChunk → S * option error))
       (s0 : S) (i : Z) (a : toolCallAccumulator),
       toolCallsMap (vars (streamLoop cb (chunks stream) initialVars s0)) !! i
       = Some a →
       parseFails Unmarshal a →
       ∃ err, generateTextStream Unmarshal range stream cb s0
              = (sink (streamLoop cb (chunks stream) initialVars s0), Err err)).
Proof.
  split; [|split].
  - intros resp choice others pre post toolCall Hchoice Hcalls Hbad.
    unfold withToolCalls, convertResponse. rewrite Hchoice. cbn.
    rewrite Hcalls, !fold_left_app. cbn.
    by rewrite responseToolCall_dropped.
  - apply convertToolCallsToParts_fails.
  - intros stream cb s0 i a Hm Hbad. unfold generateTextStream.
    change {| fullText := ""; toolCallsMap := ∅ |} with initialVars.
    destruct (returned _) as [err|]; [eauto|].
    destruct (streamErr stream) as [err|]; [eauto|].
    pose proof (convertToolCallsToParts_fails _ i a Hm Hbad) as Hfail.
    destruct (convertToolCallsToParts _ _ _) as [parts|err]; [discriminate|].
    eauto.
Qed.

(** C9.  A stream that ends with no transport error, during which the
    callback reported no error, and whose accumulated fragments all parse,
    yields a response; its finish reason is stop and it carries no usage
    record, so its three counters are zero. *)
Theorem successful_stream_finish_stop_usage_zero (stream : Stream)
    (cb : option (S → ModelResponseChunk → S * option error)) (s0 : S) :
  streamErr stream = None →
  returned (streamLoop cb (chunks stream) initialVars s0) = None →
  (∀ i a,
     toolCallsMap (vars (streamLoop cb (chunks stream) initialVars s0)) !! i
     = Some a →
     ¬ parseFails Unmarshal a) →
  ∃ resp,
    generateTextStream Unmarshal range stream cb s0
    = (sink (streamLoop cb (chunks stream) initialVars s0), Ok resp)
    ∧ ModelResponse_FinishReason resp = FinishReasonStop
    ∧ ai.Usage resp = None
    ∧ usageCounters resp = (0, 0, 0).
Proof.
  intros Htransport Hsink Hparse. unfold generateTextStream.
  change {| fullText := ""; toolCallsMap := ∅ |} with initialVars.
  rewrite Hsink, Htransport.
  destruct (convertToolCallsToParts_passes _ Hparse) as (parts & ->).
  eexists. split; [reflexivity|]. done.
Qed.

(** Whenever the streaming call returns a response at all, its finish
    reason is stop and its counters are zero. *)
Lemma generateTextStream_ok_inv (stream : Stream)
    (cb : option (S → ModelResponseChunk → S * option error)) (s0 s : S)
    (resp : ModelResponse) :
  generateTextStream Unmarshal range stream cb s0 = (s, Ok resp) →
  ModelResponse_FinishReason resp = FinishReasonStop
  ∧ usageCounters resp = (0, 0, 0)
  ∧ Message_Role (ModelResponse_Message resp) = RoleModel.
Proof.
  unfold generateTextStream.
  destruct (returned _); [intros [= ]|].
  destruct (streamErr stream); [intros [= ]|].
  destruct (convertToolCallsToParts _ _ _); intros [= _ <-]; done.
Qed.

End Assembly.

Lemma map_to_list_rangeOrder : rangeOrder map_to_list.
Proof. by intros m. Qed.

Lemma tool_argument_decode_failure_asymmetry_witness :
  Content (ModelResponse_Message (convertResponse JSONRef.Unmarshal malformedResponse))
  = [NewTextPart "hi"; barRequest]
  ∧ is_ok (convertToolCallsToParts JSONRef.Unmarshal map_to_list malformedMap) = false.
Proof.
  destruct (tool_argument_decode_failure_asymmetry (S:=unit)
              JSONRef.Unmarshal map_to_list map_to_list_rangeOrder)
    as (Hsync & Hmap & _).
  split.
  - rewrite (Hsync malformedResponse _ _ [] _ _ eq_refl eq_refl);
      vm_compute; reflexivity.
  - apply (Hmap malformedMap 0 malformedCall).
    + vm_compute. reflexivity.
    + unfold parseFails. split; [discriminate|].
      split; [discriminate | vm_compute; reflexivity].
Defined.

Lemma successful_stream_finish_stop_usage_zero_witness :
  ∃ resp,
    generateTextStream JSONRef.Unmarshal map_to_list helloStream
      (Some (failOnCall 5)) 0%nat
    = (2%nat, Ok resp)
    ∧ ModelResponse_FinishReason resp = FinishReasonStop
    ∧ usageCounters resp = (0, 0, 0).
Proof.
  destruct (successful_stream_finish_stop_usage_zero JSONRef.Unmarshal map_to_list
              map_to_list_rangeOrder helloStream (Some (failOnCall 5)) 0%nat)
    as (resp & Hrun & Hfinish & _ & Husage).
  - reflexivity.
  - vm_compute. reflexivity.
  - intros i a Hlook. vm_compute in Hlook. discriminate.
  - exists resp. split; [exact Hrun | exact (conj Hfinish Husage)].
Defined.

(** ** Fragments at different indices *)

(** What a fragment leaves at an index depends on the map only through the
    entry at that index. *)
Lemma accumulateToolCall_lookup_congr (m m' : gmap Z toolCallAccumulator)
    (d : ChatCompletionChunkChoiceDeltaToolCall) (i : Z) :
  m !! i = m' !! i →
  accumulateToolCall m d !! i = accumulateToolCall m' d !! i.
Proof.
  intros Heq. destruct (decide (int (Index d) = i)) as [<-|Hne].
  - rewrite !accumulateToolCall_same. unfold accumulatorFor. by rewrite Heq.
  - by rewrite !accumulateToolCall_other.
Qed.

Lemma fold_accumulate_restrict (fs : list ChatCompletionChunkChoiceDeltaToolCall)
    (m m' : gmap Z toolCallAccumulator) (i : Z) :
  m !! i = m' !! i →
  fold_left accumulateToolCall fs m !! i
  = fold_left accumulateToolCall (fragmentsAt i fs) m' !! i.
Proof.
  revert m m'. induction fs as [|d fs IH]; intros m m' Heq; [done|].
  unfold fragmentsAt. rewrite filter_cons. cbn. case_decide as Hd.
  - cbn. apply IH. by apply accumulateToolCall_lookup_congr.
  - apply IH. by rewrite accumulateToolCall_other.
Qed.

Lemma fragmentsAt_index (i : Z) (fs : list ChatCompletionChunkChoiceDeltaToolCall) :
  Forall (λ d, int (Index d) = i) (fragmentsAt i fs).
Proof.
  apply Forall_forall. intros d Hd.
  by apply list_elem_of_filter in Hd as [Hd _].
Qed.

Lemma fold_accumulate_arguments (fs : list ChatCompletionChunkChoiceDeltaToolCall)
    (m : gmap Z toolCallAccumulator) (i : Z) (a : toolCallAccumulator) :
  Forall (λ d, int (Index d) = i) fs →
  m !! i = Some a →
  arguments <$> fold_left accumulateToolCall fs m !! i
  = Some (arguments a +:+ argumentText fs).
Proof.
  revert m a. induction fs as [|d fs IH]; intros m a Hall Hm; cbn.
  - by rewrite Hm, append_empty_r.
  - inversion_clear Hall as [|? ? Hd Hfs]. subst i.
    erewrite IH; [|done|apply accumulateToolCall_same].
    cbn. unfold accumulatorFor. rewrite Hm. cbn.
    by rewrite append_assoc'.
Qed.

Lemma fold_accumulate_arguments_fresh
    (fs : list ChatCompletionChunkChoiceDeltaToolCall) (i : Z)
    (a : toolCallAccumulator) :
  Forall (λ d, int (Index d) = i) fs →
  fold_left accumulateToolCall fs ∅ !! i = Some a →
  arguments a = argumentText fs.
Proof.
  intros Hall Hlook. destruct fs as [|d fs].
  { cbn in Hlook. by rewrite lookup_empty in Hlook. }
  inversion_clear Hall as [|? ? Hd Hfs]. subst i. cbn in Hlook.
  pose proof (fold_accumulate_arguments fs (accumulateToolCall ∅ d) _ _ Hfs
                (accumulateToolCall_same ∅ d)) as Hargs.
  rewrite Hlook in Hargs. cbn in Hargs. injection Hargs as ->.
  unfold accumulatorFor. by rewrite lookup_empty.
Qed.

Lemma interleaved_loop {S : Type}
    (cb : option (S → ModelResponseChunk → S * option error)) (s0 : S) :
  streamLoop cb (chunks interleavedStream) initialVars s0
  = {| vars := {| fullText := ""; toolCallsMap := interleavedMap |};
       sink := s0; returned := None |}.
Proof. destruct cb; vm_compute; reflexivity. Qed.

Lemma interleaved_entries :
  map_to_list interleavedMap = [(1, barCall); (0, fooCall)].
Proof. vm_compute. reflexivity. Qed.

(** C2.  Tool-call fragments are accumulated per index.  A fragment
    changes nothing at an index other than its own.  For every chunk
    sequence, the entry the loop leaves at an index is the one that the
    fragments addressed to that index alone would have produced, in their
    arrival order, and its argument buffer is the concatenation of their
    argument texts: fragments at other indices, however interleaved, have
    no part in it (the fragments are those of the chunks processed; all of
    them unless the callback failed).  On the example sequence (index 0:
    foo with the opening of the object; index 1: bar with the empty object;
    index 0: the closing brace) the call returns, in every visiting order
    and with any decoder that reads the two texts, a response made of
    exactly the two tool requests foo with input a = 1 and bar with the
    empty input. *)
Theorem fragments_accumulate_per_index :
  (∀ (m : gmap Z toolCallAccumulator)
     (d : ChatCompletionChunkChoiceDeltaToolCall) (i : Z),
     int (Index d) ≠ i → accumulateToolCall m d !! i = m !! i)
  ∧ (∀ (S : Type) (cb : option (S → ModelResponseChunk → S * option error))
       (cs : list ChatCompletionChunk) (s0 : S),
       ∃ processed,
         processed `prefix_of` cs
         ∧ (returned (streamLoop cb cs initialVars s0) = None → processed = cs)
         ∧ ∀ i : Z,
             toolCallsMap (vars (streamLoop cb cs initialVars s0)) !! i
             = fold_left accumulateToolCall
                 (fragmentsAt i (fragmentsOf processed)) ∅ !! i
             ∧ ∀ a,
                 toolCallsMap (vars (streamLoop cb cs initialVars s0)) !! i = Some a →
                 arguments a = argumentText (fragmentsAt i (fragmentsOf processed)))
  ∧ (∀ (Unmarshal : string → result jsonMap)
       (range : gmap Z toolCallAccumulator → list (Z * toolCallAccumulator))
       (S : Type) (cb : option (S → ModelResponseChunk → S * option error))
       (s0 : S),
       rangeOrder range →
       Unmarshal fooArguments = Ok (Some {[ "a" := JNumber "1" ]}) →
       Unmarshal "{}" = Ok (Some ∅) →
       ∃ resp,
         generateTextStream Unmarshal range interleavedStream cb s0 = (s0, Ok resp)
         ∧ Content (ModelResponse_Message resp) ≡ₚ [fooRequest; barRequest]
         ∧ ModelResponse_FinishReason resp = FinishReasonStop).
Proof.
  split; [exact accumulateToolCall_other|]. split.
  - intros S cb cs s0.
    destruct (streamLoop_processed cb cs initialVars s0)
      as (processed & Hprefix & Hall & Hmap).
    exists processed. split; [done|]. split; [done|]. intros i.
    assert (Hrestrict :
      toolCallsMap (vars (streamLoop cb cs initialVars s0)) !! i
      = fold_left accumulateToolCall (fragmentsAt i (fragmentsOf processed)) ∅ !! i).
    { rewrite Hmap. by apply fold_accumulate_restrict. }
    split; [done|]. intros a Ha. rewrite Hrestrict in Ha.
    by apply (fold_accumulate_arguments_fresh _ i a (fragmentsAt_index _ _)).
  - intros Unmarshal range S cb s0 Hrange Hfoo Hbar.
    assert (Hparts : ∃ parts,
      convertToolCallsToParts Unmarshal range interleavedMap = Ok parts
      ∧ parts ≡ₚ [fooRequest; barRequest]).
    { assert (foo_named : name fooCall ≠ "") by done.
      assert (bar_named : name barCall ≠ "") by done.
      assert (foo_buffer : arguments fooCall ≠ "") by done.
      assert (bar_buffer : arguments barCall ≠ "") by done.
      unfold convertToolCallsToParts.
      pose proof (Hrange interleavedMap) as Hperm.
      rewrite interleaved_entries in Hperm. symmetry in Hperm.
      apply Permutation_length_2_inv in Hperm as [-> | ->]; cbn [forRangeErr].
      - rewrite (toolCallPart_parsed Unmarshal _ 1 barCall _ bar_named bar_buffer Hbar).
        rewrite (toolCallPart_parsed Unmarshal _ 0 fooCall _ foo_named foo_buffer Hfoo).
        eexists. split; [reflexivity | apply perm_swap].
      - rewrite (toolCallPart_parsed Unmarshal _ 0 fooCall _ foo_named foo_buffer Hfoo).
        rewrite (toolCallPart_parsed Unmarshal _ 1 barCall _ bar_named bar_buffer Hbar).
        eexists. split; reflexivity. }
    destruct Hparts as (parts & Hconv & Hperm).
    unfold generateTextStream.
    change {| fullText := ""; toolCallsMap := ∅ |} with initialVars.
    rewrite interleaved_loop. cbn [returned vars sink toolCallsMap fullText].
    change (streamErr interleavedStream) with (@None error).
    rewrite Hconv. eexists. split; [reflexivity|]. split; [exact Hperm | done].
Qed.

Lemma fragments_accumulate_per_index_witness :
  ∃ resp,
    generateTextStream JSONRef.Unmarshal map_to_list interleavedStream
      (Some (failOnCall 1)) 0%nat
    = (0%nat, Ok resp)
    ∧ Content (ModelResponse_Message resp) ≡ₚ [fooRequest; barRequest].
Proof.
  destruct (proj2 (proj2 fragments_accumulate_per_index)
              JSONRef.Unmarshal map_to_list
              nat (Some (failOnCall 1)) 0%nat map_to_list_rangeOrder)
    as (resp & Hrun & Hparts & _).
  - vm_compute. reflexivity.
  - vm_compute. reflexivity.
  - exists resp. exact (conj Hrun Hparts).
Defined.

(** ** The message translator *)

Section Translator.
Context (Marshal : json → result string).

Lemma IsText_not_tool (part : Part) :
  IsText part = true →
  IsToolRequest part = false ∧ IsToolResponse part = false.
Proof.
  unfold IsText, IsToolRequest, IsToolResponse. intros Hk.
  apply bool_decide_eq_true in Hk. rewrite Hk. done.
Qed.

Lemma assistantPart_text_only (parts : list Part) (textContent : string)
    (toolCalls : list ChatCompletionMessageFunctionToolCallParam) :
  Forall (λ part, IsText part = true) parts →
  ∃ text, forRange (assistantPart Marshal) parts (textContent, toolCalls)
          = Some (text, toolCalls).
Proof.
  revert textContent. induction parts as [|part parts IH]; intros textContent Hall.
  - by exists textContent.
  - inversion_clear Hall as [|? ? Hpart Hparts]. cbn. rewrite Hpart.
    apply IH, Hparts.
Qed.

Lemma toolPart_text_only (parts : list Part)
    (openAIMessages : list ChatCompletionMessageParamUnion) :
  Forall (λ part, IsText part = true) parts →
  forRange (toolPart Marshal) parts openAIMessages = Some openAIMessages.
Proof.
  induction parts as [|part parts IH]; intros Hall; [done|].
  inversion_clear Hall as [|? ? Hpart Hparts]. cbn. unfold toolPart.
  destruct (IsText_not_tool part Hpart) as [_ ->]. by apply IH.
Qed.

Lemma convertMessage_text_only (openAIMessages : list ChatCompletionMessageParamUnion)
    (msg : ai.Message) :
  Forall (λ part, IsText part = true) (Content msg) →
  ∃ out, convertMessage Marshal openAIMessages msg = Some (openAIMessages ++ out)
         ∧ length out = if emitsOneMessage msg then 1%nat else 0%nat.
Proof.
  intros Hall. unfold convertMessage, emitsOneMessage, hasParts, singleMessageRole.
  destruct (Content msg) as [|part0 rest] eqn:Hparts.
  { exists []. by rewrite app_nil_r. }
  cbn [andb].
  destruct (String.eqb (Message_Role msg) RoleSystem); [by eexists|].
  destruct (String.eqb (Message_Role msg) RoleUser); [by eexists|].
  destruct (String.eqb (Message_Role msg) RoleModel).
  { destruct (assistantPart_text_only (part0 :: rest) "" [] Hall) as (text & ->).
    by eexists. }
  cbn [orb].
  destruct (String.eqb (Message_Role msg) RoleTool).
  - rewrite toolPart_text_only by done. exists []. by rewrite app_nil_r.
  - exists []. by rewrite app_nil_r.
Qed.

Lemma forRange_convertMessage_text_only (messages : list ai.Message)
    (openAIMessages : list ChatCompletionMessageParamUnion) :
  textOnly messages →
  ∃ out, forRange (convertMessage Marshal) messages openAIMessages = Some out
         ∧ length out
           = (length openAIMessages + countIf emitsOneMessage messages)%nat.
Proof.
  revert openAIMessages.
  induction messages as [|msg messages IH]; intros openAIMessages Hall.
  - exists openAIMessages. unfold countIf. cbn. split; [done | lia].
  - inversion_clear Hall as [|? ? Hmsg Hrest]. cbn.
    destruct (convertMessage_text_only openAIMessages msg Hmsg) as (one & -> & Hone).
    destruct (IH (openAIMessages ++ one) Hrest) as (out & -> & Hout).
    exists out. split; [done|]. rewrite Hout, length_app, Hone.
    unfold countIf. cbn. destruct (emitsOneMessage msg); cbn; lia.
Qed.

(** C7, as amended.  For messages whose parts are all Text parts the
    translator returns as many wire messages as there are messages with a
    non-empty part sequence and a system, user or model role. *)
Theorem text_only_translation_length (messages : list ai.Message) :
  textOnly messages →
  ∃ out, convertMessagesToOpenAI Marshal messages = Some out
         ∧ length out = countIf emitsOneMessage messages.
Proof.
  intros Hall.
  destruct (forRange_convertMessage_text_only messages [] Hall) as (out & Hrun & Hlen).
  by exists out.
Qed.


End Translator.

Lemma text_only_translation_length_witness :
  ∃ out, convertMessagesToOpenAI noMarshal conversation = Some out
         ∧ length out = 3%nat.
Proof.
  refine (text_only_translation_length noMarshal conversation _).
  unfold textOnly, conversation.
  repeat (apply Forall_cons; split); try apply Forall_nil; reflexivity.
Defined.

(** C7, counterexample to the statement as written: a tool-role message
    with one Text part has a non-empty part sequence and yields no wire
    message. *)
Lemma text_only_tool_message_yields_nothing :
  textOnly [toolTextMessage]
  ∧ countIf hasParts [toolTextMessage] = 1%nat
  ∧ convertMessagesToOpenAI noMarshal [toolTextMessage] = Some [].
Proof.
  split; [|split]; [|reflexivity..].
  repeat (apply Forall_cons; split); try apply Forall_nil; reflexivity.
Qed.



(** ** The functions on sample inputs *)

Example convertResponse_hello :
  convertResponse JSONRef.Unmarshal (wireResponse "hello" [] "stop" 3 1 4)
  = {| ModelResponse_Message :=
         {| Message_Role := RoleModel; Content := [NewTextPart "hello"] |};
       ModelResponse_FinishReason := FinishReasonStop;
       ai.Usage := Some {| InputTokens := 3; OutputTokens := 1;
                           ai.TotalTokens := 4 |} |}.
Proof. vm_compute. reflexivity. Qed.

Example generateTextStream_hello :
  generateTextStream JSONRef.Unmarshal map_to_list helloStream (Some recordText) []
  = (["He"; "llo"],
     Ok {| ModelResponse_Message :=
             {| Message_Role := RoleModel; Content := [NewTextPart "Hello"] |};
           ModelResponse_FinishReason := FinishReasonStop;
           ai.Usage := None |}).
Proof. vm_compute. reflexivity. Qed.

Example generateTextStream_transport_error :
  generateTextStream JSONRef.Unmarshal map_to_list
    {| chunks := chunks helloStream;
       streamErr := Some (ErrorString "unexpected EOF") |}
    (Some recordText) []
  = (["He"; "llo"], Err (Wrap "stream error" (ErrorString "unexpected EOF"))).
Proof. vm_compute. reflexivity. Qed.

Example generateTextStream_malformed_arguments :
  generateTextStream JSONRef.Unmarshal map_to_list
    {| chunks := [deltaChunk "hi" [fragment 0 "foo" "{bad"]]; streamErr := None |}
    (Some recordText) []
  = (["hi"],
     Err (Wrap "failed to convert tool calls"
            (Wrap "failed to unmarshal tool arguments for 'foo'"
               (ErrorString "invalid character or unexpected end of JSON input")))).
Proof. vm_compute. reflexivity. Qed.

Example generateTextStream_nameless_fragment :
  generateTextStream JSONRef.Unmarshal map_to_list
    {| chunks := [deltaChunk "hi" [fragment 0 "" "{bad"]]; streamErr := None |}
    (Some recordText) []
  = (["hi"],
     Ok {| ModelResponse_Message :=
             {| Message_Role := RoleModel; Content := [NewTextPart "hi"] |};
           ModelResponse_FinishReason := FinishReasonStop;
           ai.Usage := None |}).
Proof. vm_compute. reflexivity. Qed.

Example convertMessagesToOpenAI_conversation :
  convertMessagesToOpenAI noMarshal conversation
  = Some [OfSystem "Be brief."; OfUser "Hi"; OfAssistant "Hello" []].
Proof. vm_compute. reflexivity. Qed.

(** * Further properties of the plugin *)

(** ** Strings *)

Lemma HasPrefix_spec (s prefix : string) :
  HasPrefix s prefix = true ↔ ∃ rest, s = prefix +:+ rest.
Proof.
  revert s. induction prefix as [|p prefix IH]; intros s; cbn.
  - split; [intros _; exists s; reflexivity | done].
  - destruct s as [|c s].
    + split; [done|]. intros (rest & Hrest).
      rewrite append_cons in Hrest. discriminate.
    + rewrite andb_true_iff, IH. split.
      * intros (Hc & rest & ->). apply Ascii.eqb_eq in Hc. subst c. by exists rest.
      * intros (rest & Hrest). rewrite append_cons in Hrest.
        injection Hrest as -> ->. split; [apply Ascii.eqb_refl | by exists rest].
Qed.

Lemma Contains_spec (s substr : string) :
  Contains s substr = true ↔ ∃ before after, s = before +:+ substr +:+ after.
Proof.
  induction s as [|c s IH].
  - cbn [Contains]. rewrite orb_false_r, HasPrefix_spec. split.
    + intros (rest & Hrest). by exists "", rest.
    + intros (before & after & Hs). destruct before as [|b before].
      * by exists after.
      * rewrite append_cons in Hs. discriminate.
  - cbn [Contains]. rewrite orb_true_iff, HasPrefix_spec, IH. split.
    + intros [(rest & Hrest) | (before & after & ->)].
      * by exists "", rest.
      * by exists (String c before), after.
    + intros (before & after & Hs). destruct before as [|b before].
      * left. by exists after.
      * right. rewrite append_cons in Hs. injection Hs as -> ->.
        by exists before, after.
Qed.

Lemma ToLower_append (s1 s2 : string) :
  ToLower (s1 +:+ s2) = ToLower s1 +:+ ToLower s2.
Proof.
  induction s1 as [|c s1 IH]; [done|].
  rewrite append_cons. cbn [ToLower]. by rewrite IH, append_cons.
Qed.

Lemma length_append' (s1 s2 : string) :
  String.length (s1 +:+ s2) = (String.length s1 + String.length s2)%nat.
Proof.
  induction s1 as [|c s1 IH]; [done|]. rewrite append_cons. cbn. by rewrite IH.
Qed.

Lemma TrimSuffix_append (s suffix : string) :
  suffix ≠ "" → TrimSuffix (s +:+ suffix) suffix = s.
Proof.
  intros Hne. induction s as [|c s IH].
  - rewrite append_empty_l. destruct suffix; [done|].
    cbn [TrimSuffix]. by rewrite String.eqb_refl.
  - rewrite append_cons. cbn [TrimSuffix].
    destruct (String.eqb_spec (String c (s +:+ suffix)) suffix) as [Heq|_].
    + exfalso. apply (f_equal String.length) in Heq.
      cbn in Heq. rewrite length_append' in Heq. lia.
    + by rewrite IH.
Qed.

Lemma TrimSuffix_no_suffix (s suffix : string) :
  suffix ≠ "" → (∀ s', s ≠ s' +:+ suffix) → TrimSuffix s suffix = s.
Proof.
  intros Hne. induction s as [|c s IH]; intros Hno.
  - destruct suffix; done.
  - cbn [TrimSuffix].
    destruct (String.eqb_spec (String c s) suffix) as [Heq|_].
    + exfalso. apply (Hno ""). by rewrite append_empty_l.
    + rewrite IH; [done|]. intros s' ->. apply (Hno (String c s')).
      by rewrite append_cons.
Qed.

(** An element that differs from every element of a list written out. *)
Ltac not_elem_of_list :=
  let H := fresh "Hin" in
  intros H;
  repeat (apply elem_of_cons in H as [H|H]; [discriminate H|]);
  by apply elem_of_nil in H.

(** ** Model capabilities *)

(** X1.  For an ASCII model name, tool support is inferred exactly when the
    lower-cased name contains gpt-4, gpt-35-turbo or gpt-3.5-turbo; so a
    name that contains one of them in any letter case, anywhere, gets tool
    support, whatever the model type and the vision flag. *)
Theorem tool_support_inferred_from_name (modelName modelType : string)
    (supportsVision : bool) :
  isASCII modelName = true →
  (Tools <$> Supports (inferModelCapabilities modelName modelType supportsVision)
   = Some true
   ↔ ∃ marker before after,
       marker ∈ toolMarkers ∧ ToLower modelName = before +:+ marker +:+ after)
  ∧ (∀ before mid after,
       modelName = before +:+ mid +:+ after → ToLower mid ∈ toolMarkers →
       Tools <$> Supports (inferModelCapabilities modelName modelType supportsVision)
       = Some true).
Proof.
  intros _.
  assert (Hiff :
    Tools <$> Supports (inferModelCapabilities modelName modelType supportsVision)
    = Some true
    ↔ ∃ marker before after,
        marker ∈ toolMarkers ∧ ToLower modelName = before +:+ marker +:+ after).
  { unfold inferModelCapabilities, toolMarkers. cbn [Supports Tools fmap option_fmap option_map].
    split.
    - intros [= Htools]. apply orb_true_iff in Htools as [Htools | H3].
      + apply orb_true_iff in Htools as [H1 | H2].
        * apply Contains_spec in H1 as (before & after & ?).
          exists "gpt-4", before, after. split; [by left | done].
        * apply Contains_spec in H2 as (before & after & ?).
          exists "gpt-35-turbo", before, after. split; [by right; left | done].
      + apply Contains_spec in H3 as (before & after & ?).
        exists "gpt-3.5-turbo", before, after.
        split; [by right; right; left | done].
    - intros (marker & before & after & Hin & Hname). f_equal.
      assert (Hc : Contains (ToLower modelName) marker = true)
        by (apply Contains_spec; eauto).
      apply elem_of_cons in Hin as [-> | Hin]; [by rewrite Hc|].
      apply elem_of_cons in Hin as [-> | Hin]; [by rewrite Hc, orb_true_r|].
      apply list_elem_of_singleton in Hin as ->. by rewrite Hc, !orb_true_r. }
  split; [exact Hiff|].
  intros before mid after -> Hmid. apply Hiff.
  exists (ToLower mid), (ToLower before), (ToLower after).
  split; [done|]. by rewrite !ToLower_append.
Qed.

Lemma tool_support_inferred_from_name_witness :
  Tools <$> Supports (inferModelCapabilities "Prod-GPT-4o-EastUS" "chat" false)
  = Some true.
Proof.
  apply (proj2 (tool_support_inferred_from_name "Prod-GPT-4o-EastUS" "chat" false
                  eq_refl) "Prod-" "GPT-4" "o-EastUS" eq_refl).
  vm_compute. left.
Defined.

(** ** The life cycle of the plugin *)

Section LifeCycleProperties.
Context {Credential : Type}.
Context (NewDefaultAzureCredential : result Credential).
Implicit Types (a : AzureAIFoundry Credential).

(** X2.  [Init] succeeds exactly when the plugin was not initialised, its
    endpoint is not empty, and an API key is set, or a credential is given,
    or the default credential can be created; otherwise it panics. *)
Theorem Init_succeeds_iff a :
  isDone (Init NewDefaultAzureCredential a) = true
  ↔ initted a = false
    ∧ Endpoint a ≠ ""
    ∧ (APIKey a ≠ "" ∨ is_Some (Credential_ a)
       ∨ is_ok NewDefaultAzureCredential = true).
Proof.
  unfold Init.
  destruct (initted a); [cbn; split; [done | intros [? _]; done]|].
  destruct (String.eqb_spec (Endpoint a) "") as [He|He].
  { cbn. split; [done | intros (_ & ? & _); done]. }
  destruct (nonEmpty (APIKey a)) eqn:Hkey.
  { apply nonEmpty_true in Hkey. cbn. split; [auto | done]. }
  apply nonEmpty_false in Hkey.
  destruct (Credential_ a) as [cred|].
  { cbn. split; [|done]. intros _. repeat split; [done|]. right. left. eauto. }
  destruct NewDefaultAzureCredential as [cred|err]; cbn.
  - split; [|done]. intros _. repeat split; [done|]. right. by right.
  - split; [done|]. intros (_ & _ & [Hk | [[c Hc] | Hd]]); done.
Qed.


(** X4.  One trailing slash of the endpoint makes no difference: for an
    endpoint that is not empty and does not end with a slash, [Init] builds
    the same client, with base URL endpoint + "/openai/v1", whether or not a
    slash is appended to the endpoint. *)
Theorem Init_trailing_slash a (endpoint : string) :
  endpoint ≠ "" → (∀ e, endpoint ≠ e +:+ "/") →
  initClient NewDefaultAzureCredential (withEndpoint a (endpoint +:+ "/"))
  = initClient NewDefaultAzureCredential (withEndpoint a endpoint)
  ∧ ∀ opts,
      initClient NewDefaultAzureCredential (withEndpoint a endpoint) = Done opts →
      head opts = Some (WithBaseURL (endpoint +:+ "/openai/v1")).
Proof.
  intros Hne Hslash. unfold initClient, Init, withEndpoint.
  cbn [Endpoint APIKey APIVersion Credential_ client initted].
  rewrite TrimSuffix_append by done.
  rewrite (TrimSuffix_no_suffix endpoint "/") by done.
  destruct (initted a); [done|].
  apply String.eqb_neq in Hne. rewrite Hne.
  assert (Hslashed : String.eqb (endpoint +:+ "/") "" = false).
  { apply String.eqb_neq. intros Heq. apply (f_equal String.length) in Heq.
    rewrite length_append' in Heq. cbn in Heq. lia. }
  rewrite Hslashed.
  destruct (nonEmpty (APIVersion a)), (nonEmpty (APIKey a)); cbn;
    try (split; [done | by intros opts [= <-]]);
    destruct (Credential_ a); cbn;
    try (split; [done | by intros opts [= <-]]);
    destruct NewDefaultAzureCredential; cbn;
    split; try done; by intros opts [= <-].
Qed.

(** X5.  The options of the client: an API key takes precedence over any
    credential (with a key set, [Init] on a fresh plugin with an endpoint
    succeeds without the default credential, passes the key and passes no
    token credential); and the api-version query parameter is passed
    exactly when [APIVersion] is not empty, with that value: no default
    version is supplied. *)
Theorem Init_client_options a :
  (APIKey a ≠ "" → initted a = false → Endpoint a ≠ "" →
   ∃ a', Init NewDefaultAzureCredential a = Done a'
         ∧ last (client a') = Some (WithAPIKey (APIKey a))
         ∧ ∀ cred, WithTokenCredential cred ∉ client a')
  ∧ (∀ a', Init NewDefaultAzureCredential a = Done a' →
           (APIVersion a = "" → ∀ key value, WithQueryAdd key value ∉ client a')
           ∧ (APIVersion a ≠ "" →
              client a' !! 1%nat = Some (WithQueryAdd "api-version" (APIVersion a)))).
Proof.
  split.
  - intros Hkey Hflag Hend. unfold Init. rewrite Hflag.
    apply String.eqb_neq in Hend. rewrite Hend.
    apply nonEmpty_true in Hkey. rewrite Hkey. eexists. split; [reflexivity|].
    cbn [client]. destruct (nonEmpty (APIVersion a)); cbn.
    + split; [done|]. intros cred. not_elem_of_list.
    + split; [done|]. intros cred. not_elem_of_list.
  - intros a' Hinit. unfold Init in Hinit.
    destruct (initted a); [discriminate|].
    destruct (String.eqb (Endpoint a) ""); [discriminate|].
    destruct (nonEmpty (APIVersion a)) eqn:Hver.
    + apply nonEmpty_true in Hver. split; [done|]. intros _.
      destruct (nonEmpty (APIKey a)); [by injection Hinit as <-|].
      destruct (Credential_ a); [by injection Hinit as <-|].
      destruct NewDefaultAzureCredential; [by injection Hinit as <-|discriminate].
    + apply nonEmpty_false in Hver. split; [|done]. intros _ key value.
      destruct (nonEmpty (APIKey a)); [injection Hinit as <-; cbn; not_elem_of_list|].
      destruct (Credential_ a); [injection Hinit as <-; cbn; not_elem_of_list|].
      destruct NewDefaultAzureCredential;
        [injection Hinit as <-; cbn; not_elem_of_list | discriminate].
Qed.

End LifeCycleProperties.

Lemma Init_succeeds_iff_witness :
  isDone (Init noDefaultCredential keyPlugin) = true.
Proof.
  apply (proj2 (Init_succeeds_iff noDefaultCredential keyPlugin)).
  split; [reflexivity|]. split; [discriminate|]. left. discriminate.
Defined.


Lemma Init_trailing_slash_witness :
  initClient noDefaultCredential
    (withEndpoint keyPlugin ("https://example.openai.azure.com" +:+ "/"))
  = initClient noDefaultCredential
      (withEndpoint keyPlugin "https://example.openai.azure.com").
Proof.
  apply (Init_trailing_slash noDefaultCredential keyPlugin
           "https://example.openai.azure.com").
  - discriminate.
  - intros e He.
    pose proof (TrimSuffix_append e "/" ltac:(discriminate)) as Htrim.
    rewrite <- He in Htrim. vm_compute in Htrim. subst e.
    vm_compute in He. discriminate.
Defined.

Lemma Init_client_options_witness :
  ∃ a', Init noDefaultCredential keyPlugin = Done a'
        ∧ last (client a') = Some (WithAPIKey "secret")
        ∧ ∀ cred, WithTokenCredential cred ∉ client a'.
Proof.
  apply (proj1 (Init_client_options noDefaultCredential keyPlugin)).
  - discriminate.
  - reflexivity.
  - discriminate.
Defined.

(** ** Configuration and request building *)

Section RequestProperties.
Context {float64 : Type}.
Context (Marshal : json → result string).
Implicit Types (input : @ModelRequest float64) (params : @ChatCompletionNewParams float64).

Lemma buildChatCompletionParams_inv input modelName params :
  buildChatCompletionParams Marshal input modelName = Some params →
  ∃ messages,
    convertMessagesToOpenAI Marshal (Messages input) = Some messages
    ∧ params
      = {| Params_Model := modelName;
           Params_Messages := messages;
           Params_MaxTokens := maxTokens (extractConfigFromRequest input);
           Params_Temperature := temperature (extractConfigFromRequest input);
           Params_TopP := topP (extractConfigFromRequest input);
           Params_Tools := map functionTool (ModelRequest_Tools input);
           Params_ToolChoice :=
             match ModelRequest_Tools input with
             | [] => None
             | _ :: _ =>
                 let choice := toolChoice (extractConfigFromRequest input) in
                 if String.eqb choice "auto" then Some "auto"
                 else if String.eqb choice "required" then Some "required"
                 else if String.eqb choice "none" then Some "none"
                 else None
             end |}.
Proof.
  unfold buildChatCompletionParams.
  destruct (convertMessagesToOpenAI Marshal (Messages input)) as [messages|];
    [|discriminate].
  intros [= <-]. exists messages. split; [done|].
  by destruct (ModelRequest_Tools input).
Qed.

(** X6.  The sampling parameters of a built request come from the
    configuration bag by exact dynamic type: the token limit is set exactly
    when the bag is a string-keyed map holding a Go [int] under
    maxOutputTokens, the temperature and top-p exactly when it holds a
    [float64] under temperature and topP.  A value of any other type (an
    [int64] or a [float64] token limit, say), a missing key, or a bag that
    is not such a map leaves the parameter unset, without error. *)
Theorem sampling_parameters_by_dynamic_type input modelName params :
  buildChatCompletionParams Marshal input modelName = Some params →
  (∀ n, Params_MaxTokens params = Some n
        ↔ ∃ m, Config input = GoMap m ∧ m !! "maxOutputTokens" = Some (GoInt n))
  ∧ (∀ x, Params_Temperature params = Some x
          ↔ ∃ m, Config input = GoMap m ∧ m !! "temperature" = Some (GoFloat64 x))
  ∧ (∀ x, Params_TopP params = Some x
          ↔ ∃ m, Config input = GoMap m ∧ m !! "topP" = Some (GoFloat64 x)).
Proof.
  intros Hbuild.
  apply buildChatCompletionParams_inv in Hbuild as (messages & _ & ->).
  cbn [Params_MaxTokens Params_Temperature Params_TopP].
  unfold extractConfigFromRequest.
  destruct (Config input) as [| | | | | |m|];
    try (cbn; repeat split; try done; intros (m & [=] & _)).
  cbn [maxTokens temperature topP]. repeat split.
  - intros Hn. exists m. split; [done|].
    destruct (m !! "maxOutputTokens") as [[]|]; cbn in Hn; congruence.
  - intros (m' & [= <-] & ->). done.
  - intros Hx. exists m. split; [done|].
    destruct (m !! "temperature") as [[]|]; cbn in Hx; congruence.
  - intros (m' & [= <-] & ->). done.
  - intros Hx. exists m. split; [done|].
    destruct (m !! "topP") as [[]|]; cbn in Hx; congruence.
  - intros (m' & [= <-] & ->). done.
Qed.

(** X7.  Configuration keys other than maxOutputTokens, temperature, topP
    and toolChoice are ignored: setting such a key to any value leaves the
    built request unchanged. *)
Theorem unknown_config_keys_ignored input modelName
    (m : gmap string (@goValue float64)) (key : string) (value : @goValue float64) :
  key ∉ configKeys →
  buildChatCompletionParams Marshal (withConfig input (GoMap (<[key := value]> m)))
    modelName
  = buildChatCompletionParams Marshal (withConfig input (GoMap m)) modelName.
Proof.
  intros Hkey. unfold configKeys in Hkey.
  assert (Hlook : ∀ k, k ∈ configKeys → <[key := value]> m !! k = m !! k).
  { intros k Hk. apply lookup_insert_ne. intros ->. by apply Hkey. }
  unfold buildChatCompletionParams, extractConfigFromRequest, withConfig.
  cbn [Messages Config ModelRequest_Tools maxTokens temperature topP toolChoice].
  rewrite !Hlook; [done | unfold configKeys..].
  - by right; right; right; left.
  - by right; right; left.
  - by right; left.
  - by left.
Qed.

(** X8.  A built request carries a tool choice exactly when the request
    has at least one tool and the configured toolChoice is one of auto,
    required and none, and it is then that literal; without tools, or with
    any other literal, no tool choice is set.  The tools are converted one
    for one and in order, a description being passed exactly when it is
    not empty. *)
Theorem tool_choice_needs_tools input modelName params :
  buildChatCompletionParams Marshal input modelName = Some params →
  (∀ choice, Params_ToolChoice params = Some choice
             ↔ ModelRequest_Tools input ≠ []
               ∧ choice ∈ toolChoices
               ∧ toolChoice (extractConfigFromRequest input) = choice)
  ∧ map Function_Param_Name (Params_Tools params)
    = map ToolDefinition_Name (ModelRequest_Tools input)
  ∧ Forall2 (λ tool converted,
               Function_Param_Parameters converted = InputSchema tool
               ∧ (Function_Param_Description converted = None ↔ Description tool = "")
               ∧ ∀ text, Function_Param_Description converted = Some text →
                         text = Description tool)
            (ModelRequest_Tools input) (Params_Tools params).
Proof.
  intros Hbuild.
  apply buildChatCompletionParams_inv in Hbuild as (messages & _ & ->).
  cbn [Params_ToolChoice Params_Tools]. split; [|split].
  - intros choice. unfold toolChoices.
    destruct (ModelRequest_Tools input) as [|tool tools].
    { split; [done | by intros [? _]]. }
    cbv zeta.
    destruct (String.eqb_spec (toolChoice (extractConfigFromRequest input)) "auto")
      as [->|Hauto].
    { split; [intros [= <-]; repeat split; [done | by left]
             | by intros (_ & _ & <-)]. }
    destruct (String.eqb_spec (toolChoice (extractConfigFromRequest input)) "required")
      as [->|Hreq].
    { split; [intros [= <-]; repeat split; [done | by right; left]
             | by intros (_ & _ & <-)]. }
    destruct (String.eqb_spec (toolChoice (extractConfigFromRequest input)) "none")
      as [->|Hnone].
    { split; [intros [= <-]; repeat split; [done | by right; right; left]
             | by intros (_ & _ & <-)]. }
    split; [done|]. intros (_ & Hin & <-).
    apply elem_of_cons in Hin as [?|Hin]; [done|].
    apply elem_of_cons in Hin as [?|Hin]; [done|].
    apply list_elem_of_singleton in Hin. done.
  - rewrite map_map. done.
  - induction (ModelRequest_Tools input) as [|tool tools IH]; [constructor|].
    cbn [map]. constructor; [|exact IH].
    unfold functionTool. cbn. split; [done|].
    destruct (nonEmpty (Description tool)) eqn:Hd.
    + apply nonEmpty_true in Hd. split; [split; done | by intros text [= <-]].
    + apply nonEmpty_false in Hd. split; [split; done | done].
Qed.

End RequestProperties.

Lemma sampling_parameters_by_dynamic_type_witness :
  ∃ params,
    buildChatCompletionParams noMarshal sampleRequest "gpt-4o" = Some params
    ∧ Params_MaxTokens params = Some 1000.
Proof.
  eexists. split; [reflexivity|].
  apply (proj1 (sampling_parameters_by_dynamic_type noMarshal sampleRequest "gpt-4o"
                  _ eq_refl) 1000).
  exists sampleConfig. split; [reflexivity | vm_compute; reflexivity].
Defined.

Lemma unknown_config_keys_ignored_witness :
  buildChatCompletionParams noMarshal
    (withConfig sampleRequest (GoMap (<[ "seed" := GoInt 7 ]> sampleConfig))) "gpt-4o"
  = buildChatCompletionParams noMarshal
      (withConfig sampleRequest (GoMap sampleConfig)) "gpt-4o".
Proof.
  apply (unknown_config_keys_ignored noMarshal sampleRequest "gpt-4o"
           sampleConfig "seed" (GoInt 7)).
  unfold configKeys. not_elem_of_list.
Defined.

Lemma tool_choice_needs_tools_witness :
  ∃ params,
    buildChatCompletionParams noMarshal sampleRequest "gpt-4o" = Some params
    ∧ Params_ToolChoice params = Some "required".
Proof.
  eexists. split; [reflexivity|].
  apply (proj1 (tool_choice_needs_tools noMarshal sampleRequest "gpt-4o" _ eq_refl)
           "required").
  split; [discriminate|]. split; [by right; left | vm_compute; reflexivity].
Defined.

(** ** More on streaming *)

Lemma accumulateToolCall_id (m : gmap Z toolCallAccumulator)
    (d : ChatCompletionChunkChoiceDeltaToolCall) (i : Z) (a : toolCallAccumulator) :
  m !! i = Some a → id <$> accumulateToolCall m d !! i = Some (id a).
Proof.
  intros Hm. destruct (decide (int (Index d) = i)) as [<-|Hne].
  - rewrite accumulateToolCall_same. unfold accumulatorFor. by rewrite Hm.
  - by rewrite accumulateToolCall_other, Hm.
Qed.

Lemma fold_accumulate_id (fs : list ChatCompletionChunkChoiceDeltaToolCall)
    (m : gmap Z toolCallAccumulator) (i : Z) (a : toolCallAccumulator) :
  m !! i = Some a → id <$> fold_left accumulateToolCall fs m !! i = Some (id a).
Proof.
  revert m a. induction fs as [|d fs IH]; intros m a Hm; cbn.
  - by rewrite Hm.
  - pose proof (accumulateToolCall_id m d i a Hm) as Hstep.
    destruct (accumulateToolCall m d !! i) as [a1|] eqn:Hm1; [|discriminate].
    injection Hstep as Hid. rewrite (IH _ _ Hm1). by rewrite Hid.
Qed.

(** X9.  The id of an accumulated tool call is set once, when the entry is
    created: it is the id of the first fragment received at the index, and
    no later fragment changes it, whether or not the stored id is empty
    and whatever id the later fragment carries. *)
Theorem stored_id_is_first_fragment_id (m : gmap Z toolCallAccumulator)
    (d : ChatCompletionChunkChoiceDeltaToolCall)
    (later : list ChatCompletionChunkChoiceDeltaToolCall) :
  m !! int (Index d) = None →
  id <$> fold_left accumulateToolCall (d :: later) m !! int (Index d)
  = Some (Delta_ID d).
Proof.
  intros Hfresh. cbn [fold_left].
  pose proof (accumulateToolCall_same m d) as Hcreated.
  rewrite (fold_accumulate_id later _ _ _ Hcreated). cbn.
  unfold accumulatorFor. by rewrite Hfresh.
Qed.

Lemma stored_id_is_first_fragment_id_witness :
  id <$> fold_left accumulateToolCall idThenLate freshMap !! 0 = Some "call_abc".
Proof.
  apply (stored_id_is_first_fragment_id freshMap
           {| Index := 0; Delta_ID := "call_abc"; Delta_Function_Name := "foo";
              Delta_Function_Arguments := "" |}).
  vm_compute. reflexivity.
Defined.

Section StreamingProperties.
Context (Unmarshal : string → result jsonMap).
Context (range : gmap Z toolCallAccumulator → list (Z * toolCallAccumulator)).
Context (Hrange : rangeOrder range).
Context {S : Type}.
Implicit Types (cb : option (S → ModelResponseChunk → S * option error)).
Implicit Types (cs : list ChatCompletionChunk) (v : streamVars) (s : S).

Lemma processChunk_returned_callback cb v s chunk err :
  returned (processChunk cb v s chunk) = Some err →
  ∃ cause, err = Wrap "streaming callback error" cause.
Proof.
  unfold processChunk.
  destruct (Chunk_Choices chunk) as [|choice others]; cbn; [done|].
  destruct (nonEmpty (Delta_Content (Delta choice))); cbn; [|done].
  destruct cb as [f|]; cbn; [|done].
  destruct (f s _) as [s' [cause|]]; cbn; [|done].
  intros [= <-]. by exists cause.
Qed.

Lemma streamLoop_returned_callback cb cs v s err :
  returned (streamLoop cb cs v s) = Some err →
  ∃ cause, err = Wrap "streaming callback error" cause.
Proof.
  revert v s. induction cs as [|chunk cs IH]; intros v s; cbn; [done|].
  destruct (returned (processChunk cb v s chunk)) as [e|] eqn:Hret.
  - rewrite Hret. intros [= <-]. by eapply processChunk_returned_callback.
  - apply IH.
Qed.

(** X10.  The streaming call fails for one of three causes and for no
    other, and its error tells which: it returns a response exactly when
    the callback reported no error, the transport reported none, and no
    accumulated fragment has a name and a non-empty buffer that the decoder
    rejects.  A callback error wins over a transport error (wrapped as
    streaming callback error), which wins over a rejected buffer (stream
    error, then failed to convert tool calls). *)
Theorem generateTextStream_failure_causes (stream : Stream) cb s0 :
  (is_ok (generateTextStream Unmarshal range stream cb s0).2 = true
   ↔ returned (streamLoop cb (chunks stream) initialVars s0) = None
     ∧ streamErr stream = None
     ∧ ∀ i a,
         toolCallsMap (vars (streamLoop cb (chunks stream) initialVars s0)) !! i
         = Some a →
         ¬ parseFails Unmarshal a)
  ∧ (∀ err, returned (streamLoop cb (chunks stream) initialVars s0) = Some err →
            (generateTextStream Unmarshal range stream cb s0).2 = Err err
            ∧ ∃ cause, err = Wrap "streaming callback error" cause)
  ∧ (∀ err, returned (streamLoop cb (chunks stream) initialVars s0) = None →
            streamErr stream = Some err →
            (generateTextStream Unmarshal range stream cb s0).2
            = Err (Wrap "stream error" err))
  ∧ (∀ i a, returned (streamLoop cb (chunks stream) initialVars s0) = None →
            streamErr stream = None →
            toolCallsMap (vars (streamLoop cb (chunks stream) initialVars s0)) !! i
            = Some a →
            parseFails Unmarshal a →
            ∃ cause, (generateTextStream Unmarshal range stream cb s0).2
                     = Err (Wrap "failed to convert tool calls" cause)).
Proof.
  unfold generateTextStream.
  change {| fullText := ""; toolCallsMap := ∅ |} with initialVars.
  destruct (returned (streamLoop cb (chunks stream) initialVars s0))
    as [err|] eqn:Hret.
  { split; [split; [done | by intros [? _]]|].
    split; [|split; done].
    intros e [= <-]. split; [done|]. by eapply streamLoop_returned_callback. }
  destruct (streamErr stream) as [err|] eqn:Herr.
  { split; [split; [done | by intros (_ & ? & _)]|].
    split; [done|]. split; [by intros e _ [= <-] | done]. }
  destruct (convertToolCallsToParts Unmarshal range _) as [parts|err] eqn:Hconv.
  - split.
    + split; [|done]. intros _. split; [done|]. split; [done|].
      intros i a Hm Hbad.
      pose proof (convertToolCallsToParts_fails Unmarshal range Hrange _ i a Hm Hbad)
        as Hfail.
      by rewrite Hconv in Hfail.
    + split; [done|]. split; [done|]. intros i a _ _ Hm Hbad.
      pose proof (convertToolCallsToParts_fails Unmarshal range Hrange _ i a Hm Hbad)
        as Hfail.
      by rewrite Hconv in Hfail.
  - split.
    + split; [done|]. intros (_ & _ & Hgood).
      destruct (convertToolCallsToParts_passes Unmarshal range Hrange _ Hgood)
        as (parts & Hparts).
      by rewrite Hconv in Hparts.
    + split; [done|]. split; [done|]. intros. by exists err.
Qed.

Lemma forRangeErr_toolCallPart_closed (entries : list (Z * toolCallAccumulator))
    (parts out : list Part) :
  forRangeErr (toolCallPart Unmarshal) entries parts = Ok out →
  out = parts ++ omap (toolRequestOf Unmarshal) entries.
Proof.
  revert parts. induction entries as [|entry entries IH]; intros parts; cbn.
  - intros [= <-]. by rewrite app_nil_r.
  - unfold toolCallPart at 1, toolRequestOf at 1, decodedArguments. cbv zeta.
    destruct (String.eqb (name entry.2) ""); [apply IH|].
    rewrite length_pos_nonEmpty.
    destruct (nonEmpty (arguments entry.2)).
    + destruct (Unmarshal (arguments entry.2)) as [args|err]; [|discriminate].
      intros Hrest. rewrite (IH _ Hrest). by rewrite <- app_assoc.
    + intros Hrest. rewrite (IH _ Hrest). by rewrite <- app_assoc.
Qed.

(** X11.  When the accumulated tool calls are converted, the parts are, up
    to order, the tool requests of the named fragments, one each: a
    fragment without a name gives no part, a named fragment with an empty
    buffer gives a request with nil input, any other a request with the
    decoded input.  The order is the visiting order of the map, so two
    runs agree up to a permutation. *)
Theorem convertToolCallsToParts_named_fragments (m : gmap Z toolCallAccumulator)
    (parts : list Part) :
  convertToolCallsToParts Unmarshal range m = Ok parts →
  parts = omap (toolRequestOf Unmarshal) (range m)
  ∧ parts ≡ₚ omap (toolRequestOf Unmarshal) (map_to_list m)
  ∧ Forall (λ part, IsToolRequest part = true) parts.
Proof.
  intros Hconv. unfold convertToolCallsToParts in Hconv.
  apply forRangeErr_toolCallPart_closed in Hconv. cbn in Hconv.
  split; [done|]. split; [by rewrite Hconv, (Hrange m)|].
  rewrite Hconv. apply Forall_forall. intros part Hin.
  apply list_elem_of_omap in Hin as (entry & _ & Hpart).
  unfold toolRequestOf in Hpart.
  destruct (String.eqb (name entry.2) ""); [discriminate|].
  by injection Hpart as <-.
Qed.

Lemma streamLoop_fullText cb cs v s :
  returned (streamLoop cb cs v s) = None →
  fullText (vars (streamLoop cb cs v s)) = fullText v +:+ streamText cs.
Proof.
  revert v s. induction cs as [|chunk cs IH]; intros v s; cbn.
  - intros _. by rewrite append_empty_r.
  - destruct (returned (processChunk cb v s chunk)) as [err|] eqn:Hret.
    + by rewrite Hret.
    + intros Hnone. rewrite IH by done. rewrite <- append_assoc'. f_equal.
      clear IH Hnone. unfold processChunk, chunkText in *.
      destruct (Chunk_Choices chunk) as [|choice others]; cbn in *.
      { by rewrite append_empty_r. }
      destruct (nonEmpty (Delta_Content (Delta choice))) eqn:Htext; cbn in *.
      * destruct cb as [f|]; cbn in *; [|done].
        destruct (f s _) as [s' [e|]]; cbn in *; done.
      * apply nonEmpty_false in Htext. by rewrite Htext, append_empty_r.
Qed.

(** X12.  The content of a streamed response is at most one Text part,
    then tool requests only: the Text part is present exactly when the
    concatenation of the delta contents, in arrival order, is not empty,
    it holds that concatenation, and it comes first. *)
Theorem streamed_response_text_then_tool_requests (stream : Stream) cb s0 s
    (resp : ModelResponse) :
  generateTextStream Unmarshal range stream cb s0 = (s, Ok resp) →
  ∃ toolParts,
    Content (ModelResponse_Message resp)
    = (if nonEmpty (streamText (chunks stream))
       then [NewTextPart (streamText (chunks stream))] else []) ++ toolParts
    ∧ Forall (λ part, IsToolRequest part = true) toolParts.
Proof.
  unfold generateTextStream.
  change {| fullText := ""; toolCallsMap := ∅ |} with initialVars.
  destruct (returned (streamLoop cb (chunks stream) initialVars s0)) eqn:Hret;
    [discriminate|].
  destruct (streamErr stream); [discriminate|].
  destruct (convertToolCallsToParts Unmarshal range _) as [parts|] eqn:Hconv;
    [|discriminate].
  intros [= _ <-]. exists parts. cbn [ModelResponse_Message Content].
  rewrite length_pos_nonEmpty, streamLoop_fullText by done.
  unfold initialVars. cbn [fullText]. rewrite append_empty_l. split; [done|].
  by apply (convertToolCallsToParts_named_fragments _ _ Hconv).
Qed.

Lemma processChunk_sink (f : S → ModelResponseChunk → S * option error) v s chunk :
  returned (processChunk (Some f) v s chunk) = None →
  sink (processChunk (Some f) v s chunk)
  = if nonEmpty (chunkText chunk)
    then (f s {| Chunk_Content := [NewTextPart (chunkText chunk)] |}).1 else s.
Proof.
  unfold processChunk, chunkText.
  destruct (Chunk_Choices chunk) as [|choice others]; cbn; [done|].
  destruct (nonEmpty (Delta_Content (Delta choice))) eqn:Htext; cbn; [|done].
  destruct (f s _) as [s' [e|]]; cbn; done.
Qed.

(** X13.  While the callback reports no error it is invoked exactly once
    for each chunk whose delta content is not empty, in arrival order,
    with a chunk made of one Text part holding that content; chunks with
    no choice or an empty content do not reach it. *)
Theorem callback_receives_each_text_once
    (f : S → ModelResponseChunk → S * option error) cs v s0 :
  returned (streamLoop (Some f) cs v s0) = None →
  sink (streamLoop (Some f) cs v s0)
  = fold_left (λ s text, (f s {| Chunk_Content := [NewTextPart text] |}).1)
      (List.filter nonEmpty (map chunkText cs)) s0.
Proof.
  revert v s0. induction cs as [|chunk cs IH]; intros v s0; [done|].
  cbn [streamLoop map List.filter].
  destruct (returned (processChunk (Some f) v s0 chunk)) as [err|] eqn:Hret.
  { by rewrite Hret. }
  intros Hnone. rewrite IH, processChunk_sink by done.
  by destruct (nonEmpty (chunkText chunk)).
Qed.

End StreamingProperties.

Lemma generateTextStream_failure_causes_witness :
  (generateTextStream JSONRef.Unmarshal map_to_list
     {| chunks := chunks helloStream;
        streamErr := Some (ErrorString "unexpected EOF") |}
     (Some recordText) []).2
  = Err (Wrap "stream error" (ErrorString "unexpected EOF")).
Proof.
  apply (proj1 (proj2 (proj2
           (generateTextStream_failure_causes JSONRef.Unmarshal map_to_list
              map_to_list_rangeOrder
              {| chunks := chunks helloStream;
                 streamErr := Some (ErrorString "unexpected EOF") |}
              (Some recordText) [])))).
  - vm_compute. reflexivity.
  - reflexivity.
Defined.

Lemma convertToolCallsToParts_named_fragments_witness :
  [barRequest; fooRequest]
  ≡ₚ omap (toolRequestOf JSONRef.Unmarshal) (map_to_list interleavedMap).
Proof.
  apply (convertToolCallsToParts_named_fragments JSONRef.Unmarshal map_to_list
           map_to_list_rangeOrder interleavedMap [barRequest; fooRequest]).
  vm_compute. reflexivity.
Defined.

Lemma streamed_response_text_then_tool_requests_witness :
  ∃ toolParts,
    [NewTextPart "Hello"]
    = (if nonEmpty (streamText (chunks helloStream))
       then [NewTextPart (streamText (chunks helloStream))] else []) ++ toolParts
    ∧ Forall (λ part, IsToolRequest part = true) toolParts.
Proof.
  apply (streamed_response_text_then_tool_requests JSONRef.Unmarshal map_to_list
           map_to_list_rangeOrder helloStream (Some recordText) [] ["He"; "llo"]
           {| ModelResponse_Message :=
                {| Message_Role := RoleModel; Content := [NewTextPart "Hello"] |};
              ModelResponse_FinishReason := FinishReasonStop;
              ai.Usage := None |}).
  vm_compute. reflexivity.
Defined.

Lemma callback_receives_each_text_once_witness :
  sink (streamLoop (Some recordText) (chunks helloStream) initialVars [])
  = fold_left (λ s text, (recordText s {| Chunk_Content := [NewTextPart text] |}).1)
      ["He"; "llo"] [].
Proof.
  apply (callback_receives_each_text_once recordText (chunks helloStream)
           initialVars []).
  vm_compute. reflexivity.
Defined.

Lemma length_omap_le {A B : Type} (f : A → option B) (l : list A) :
  (length (omap f l) ≤ length l)%nat.
Proof.
  induction l as [|x l IH]; cbn; [done|]. destruct (f x); cbn; lia.
Qed.

(** ** More on the synchronous assembler *)

Section SyncProperties.
Context (Unmarshal : string → result jsonMap).

Lemma fold_responseToolCall (toolCalls : list ChatCompletionMessageToolCallUnion)
    (content : list Part) :
  fold_left (responseToolCall Unmarshal) toolCalls content
  = content ++ omap (responsePart Unmarshal) toolCalls.
Proof.
  revert content. induction toolCalls as [|toolCall toolCalls IH]; intros content.
  - cbn. by rewrite app_nil_r.
  - cbn [fold_left omap list_omap]. rewrite IH.
    unfold responseToolCall, responsePart. cbn [AsFunction ID Function_Arguments Function_Name].
    destruct (nonEmpty (Union_ID toolCall)); [|done].
    destruct (Unmarshal (Union_Function_Arguments toolCall)); [|done].
    by rewrite <- app_assoc.
Qed.

(** X14.  The parts of a converted response are at most one Text part,
    present exactly when the message content of the first choice is not
    empty and then first, followed by one tool request for each tool call
    of that choice that has a non-empty id and arguments the decoder
    accepts, in wire order; a tool call with an empty id is dropped even
    when its arguments are valid, and the response never has more parts
    than one plus the number of tool calls. *)
Theorem convertResponse_parts (resp : ChatCompletion)
    (choice : ChatCompletionChoice) (others : list ChatCompletionChoice) :
  Choices resp = choice :: others →
  Content (ModelResponse_Message (convertResponse Unmarshal resp))
  = (if nonEmpty (Message_Content (Message choice))
     then [NewTextPart (Message_Content (Message choice))] else [])
    ++ omap (responsePart Unmarshal) (Message_ToolCalls (Message choice))
  ∧ (length (Content (ModelResponse_Message (convertResponse Unmarshal resp)))
     ≤ 1 + length (Message_ToolCalls (Message choice)))%nat
  ∧ ∀ toolCall, Union_ID toolCall = "" → responsePart Unmarshal toolCall = None.
Proof.
  intros Hchoice.
  assert (Hparts :
    Content (ModelResponse_Message (convertResponse Unmarshal resp))
    = (if nonEmpty (Message_Content (Message choice))
       then [NewTextPart (Message_Content (Message choice))] else [])
      ++ omap (responsePart Unmarshal) (Message_ToolCalls (Message choice))).
  { unfold convertResponse. rewrite Hchoice. cbn [ModelResponse_Message Content].
    apply fold_responseToolCall. }
  split; [exact Hparts|]. split.
  - rewrite Hparts, length_app.
    pose proof (length_omap_le (responsePart Unmarshal)
                  (Message_ToolCalls (Message choice))) as Hle.
    destruct (nonEmpty _); cbn [length]; lia.
  - intros toolCall Hid. unfold responsePart. by rewrite Hid.
Qed.

End SyncProperties.

Lemma convertResponse_parts_witness :
  Content (ModelResponse_Message (convertResponse JSONRef.Unmarshal malformedResponse))
  = [NewTextPart "hi"]
    ++ omap (responsePart JSONRef.Unmarshal)
         (Message_ToolCalls
            {| Message_Content := "hi";
               Message_ToolCalls :=
                 [ {| Union_ID := "call_1"; Union_Function_Name := "foo";
                      Union_Function_Arguments := "{bad";
                      Union_Type := "function" |};
                   {| Union_ID := "call_2"; Union_Function_Name := "bar";
                      Union_Function_Arguments := "{}";
                      Union_Type := "function" |} ] |}).
Proof.
  exact (proj1 (convertResponse_parts JSONRef.Unmarshal malformedResponse _ _ eq_refl)).
Defined.

(** ** More on the message translator *)

Section TranslatorProperties.
Context (Marshal : json → result string).

Lemma forRange_app {A St : Type} (body : St → A → option St) (xs ys : list A) (st : St) :
  forRange body (xs ++ ys) st
  = match forRange body xs st with
    | Some st' => forRange body ys st'
    | None => None
    end.
Proof.
  revert st. induction xs as [|x xs IH]; intros st; cbn; [done|].
  destruct (body st x); [apply IH | done].
Qed.

Lemma assistantPart_closed (parts : list Part) (textContent : string)
    (toolCalls : list ChatCompletionMessageFunctionToolCallParam) :
  Forall (λ part, wellFormedPart part = true) parts →
  forRange (assistantPart Marshal) parts (textContent, toolCalls)
  = Some (textContent +:+ assistantText parts,
          toolCalls ++ omap (assistantCall Marshal) parts).
Proof.
  revert textContent toolCalls.
  induction parts as [|part parts IH]; intros textContent toolCalls Hall.
  - cbn. by rewrite append_empty_r, app_nil_r.
  - inversion_clear Hall as [|? ? Hpart Hparts].
    cbn [forRange assistantText foldr omap list_omap].
    unfold assistantPart at 1, assistantCall at 1.
    destruct (IsText part) eqn:Htext.
    { rewrite IH by done. by rewrite append_assoc'. }
    destruct (IsToolRequest part) eqn:Hreq; [|by rewrite IH].
    unfold wellFormedPart in Hpart. rewrite Hreq in Hpart. cbn in Hpart.
    apply andb_true_iff in Hpart as [Hsome _].
    apply bool_decide_eq_true in Hsome as [toolReq Hsome]. rewrite Hsome.
    destruct (Marshal (ToolRequest_Input toolReq)); rewrite IH by done;
      [by rewrite <- app_assoc | done].
Qed.

Lemma toolPart_closed (parts : list Part)
    (openAIMessages : list ChatCompletionMessageParamUnion) :
  Forall (λ part, wellFormedPart part = true) parts →
  forRange (toolPart Marshal) parts openAIMessages
  = Some (openAIMessages ++ omap (toolMessage Marshal) parts).
Proof.
  revert openAIMessages.
  induction parts as [|part parts IH]; intros openAIMessages Hall.
  - cbn. by rewrite app_nil_r.
  - inversion_clear Hall as [|? ? Hpart Hparts].
    cbn [forRange omap list_omap]. unfold toolPart at 1, toolMessage at 1.
    destruct (IsToolResponse part) eqn:Hresp; [|by rewrite IH].
    unfold wellFormedPart in Hpart. rewrite Hresp in Hpart.
    apply andb_true_iff in Hpart as [_ Hsome]. cbn in Hsome.
    apply bool_decide_eq_true in Hsome as [toolResp Hsome]. rewrite Hsome.
    destruct (Marshal (ToolResponse_Output toolResp)); rewrite IH by done;
      [by rewrite <- app_assoc | done].
Qed.

(** A message is translated on its own: what it adds does not depend on
    the messages already translated. *)
Lemma convertMessage_acc (openAIMessages : list ChatCompletionMessageParamUnion)
    (msg : ai.Message) :
  convertMessage Marshal openAIMessages msg
  = (openAIMessages ++.) <$> convertMessage Marshal [] msg.
Proof.
  unfold convertMessage.
  destruct (Content msg) as [|part0 rest]; [cbn; by rewrite app_nil_r|].
  destruct (String.eqb (Message_Role msg) RoleSystem); [done|].
  destruct (String.eqb (Message_Role msg) RoleUser); [done|].
  destruct (String.eqb (Message_Role msg) RoleModel).
  { by destruct (forRange (assistantPart Marshal) _ _) as [[? ?]|]. }
  destruct (String.eqb (Message_Role msg) RoleTool);
    [|cbn; by rewrite app_nil_r].
  generalize (part0 :: rest). intros parts. clear part0 rest.
  assert (Hgen : ∀ acc, forRange (toolPart Marshal) parts acc
                        = (acc ++.) <$> forRange (toolPart Marshal) parts []).
  { induction parts as [|part parts IH]; intros acc; cbn.
    - by rewrite app_nil_r.
    - unfold toolPart at 1 3.
      destruct (IsToolResponse part); [|apply IH].
      destruct (Part_ToolResponse part) as [toolResp|]; [|done].
      destruct (Marshal (ToolResponse_Output toolResp)) as [out|]; [|apply IH].
      rewrite (IH (acc ++ _)), (IH ([] ++ _)).
      destruct (forRange (toolPart Marshal) parts []); cbn; [|done].
      by rewrite <- !app_assoc. }
  apply Hgen.
Qed.

Lemma forRange_convertMessage_acc (messages : list ai.Message)
    (openAIMessages : list ChatCompletionMessageParamUnion) :
  forRange (convertMessage Marshal) messages openAIMessages
  = (openAIMessages ++.) <$> forRange (convertMessage Marshal) messages [].
Proof.
  revert openAIMessages.
  induction messages as [|msg messages IH]; intros openAIMessages; cbn.
  - by rewrite app_nil_r.
  - rewrite (convertMessage_acc openAIMessages).
    destruct (convertMessage Marshal [] msg) as [one|]; cbn; [|done].
    rewrite (IH (openAIMessages ++ one)), (IH one).
    destruct (forRange (convertMessage Marshal) messages []); cbn; [|done].
    by rewrite app_assoc.
Qed.

(** X15.  Messages are translated one by one and in order: the
    translation of a concatenation is the concatenation of the
    translations, and it panics exactly when one of the two does. *)
Theorem convertMessagesToOpenAI_app (messages1 messages2 : list ai.Message) :
  convertMessagesToOpenAI Marshal (messages1 ++ messages2)
  = match convertMessagesToOpenAI Marshal messages1,
          convertMessagesToOpenAI Marshal messages2 with
    | Some wire1, Some wire2 => Some (wire1 ++ wire2)
    | _, _ => None
    end.
Proof.
  unfold convertMessagesToOpenAI. rewrite forRange_app.
  destruct (forRange (convertMessage Marshal) messages1 []) as [wire1|]; [|done].
  rewrite forRange_convertMessage_acc.
  by destruct (forRange (convertMessage Marshal) messages2 []).
Qed.

(** X16.  The translator does not panic on well-formed parts: when every
    part that is a tool request or a tool response carries one (as the
    constructors of parts guarantee), every message sequence is
    translated. *)
Theorem convertMessagesToOpenAI_total (messages : list ai.Message) :
  wellFormedMessages messages →
  is_Some (convertMessagesToOpenAI Marshal messages).
Proof.
  unfold convertMessagesToOpenAI. generalize (@nil ChatCompletionMessageParamUnion).
  induction messages as [|msg messages IH]; intros acc Hall; cbn; [eauto|].
  inversion_clear Hall as [|? ? Hmsg Hrest].
  assert (Hone : is_Some (convertMessage Marshal acc msg)).
  { unfold convertMessage.
    destruct (Content msg) as [|part0 rest]; [eauto|].
    destruct (String.eqb (Message_Role msg) RoleSystem); [eauto|].
    destruct (String.eqb (Message_Role msg) RoleUser); [eauto|].
    destruct (String.eqb (Message_Role msg) RoleModel).
    { rewrite assistantPart_closed by done. eauto. }
    destruct (String.eqb (Message_Role msg) RoleTool); [|eauto].
    rewrite toolPart_closed by done. eauto. }
  destruct Hone as [acc' ->]. by apply IH.
Qed.

Lemma convertMessage_model (msg : ai.Message) :
  Message_Role msg = RoleModel → Content msg ≠ [] →
  Forall (λ part, wellFormedPart part = true) (Content msg) →
  convertMessagesToOpenAI Marshal [msg]
  = Some [OfAssistant (assistantText (Content msg))
            (omap (assistantCall Marshal) (Content msg))].
Proof.
  intros Hrole Hparts Hall.
  unfold convertMessagesToOpenAI. cbn [forRange]. unfold convertMessage.
  destruct (Content msg) as [|part0 rest] eqn:Hcontent; [done|].
  rewrite Hrole.
  change (String.eqb RoleModel RoleSystem) with false.
  change (String.eqb RoleModel RoleUser) with false.
  change (String.eqb RoleModel RoleModel) with true. cbv iota.
  rewrite assistantPart_closed by done. done.
Qed.

Lemma assistantCall_id (part : Part)
    (call : ChatCompletionMessageFunctionToolCallParam) :
  assistantCall Marshal part = Some call →
  Param_ID call = callID (Param_Function_Name call) ∧ Param_Type call = "function".
Proof.
  unfold assistantCall.
  destruct (IsText part); [discriminate|].
  destruct (IsToolRequest part); [|discriminate].
  destruct (Part_ToolRequest part) as [toolReq|]; [|discriminate].
  destruct (Marshal (ToolRequest_Input toolReq)); [|discriminate].
  by intros [= <-].
Qed.

(** X17.  A model-role message with well-formed parts becomes exactly one
    assistant message: its content is the concatenation of the Text parts
    in order, and its tool calls are, in order, one for each tool request
    whose input the encoder accepts, of type function, named after the
    tool and with the id "call_" followed by the tool name; a tool request
    whose input cannot be encoded is left out and parts of other kinds are
    ignored. *)
Theorem model_message_translation (msg : ai.Message) :
  Message_Role msg = RoleModel → Content msg ≠ [] →
  Forall (λ part, wellFormedPart part = true) (Content msg) →
  convertMessagesToOpenAI Marshal [msg]
  = Some [OfAssistant (assistantText (Content msg))
            (omap (assistantCall Marshal) (Content msg))]
  ∧ Forall (λ call, Param_ID call = callID (Param_Function_Name call)
                    ∧ Param_Type call = "function")
           (omap (assistantCall Marshal) (Content msg)).
Proof.
  intros Hrole Hparts Hall. split; [by apply convertMessage_model|].
  apply Forall_forall. intros call Hin.
  apply list_elem_of_omap in Hin as (part & _ & Hcall).
  by eapply assistantCall_id.
Qed.

(** X18.  A tool-role message with well-formed parts becomes one tool
    message for each tool response whose output the encoder accepts, in
    order, with the encoded output as content and the id "call_" followed
    by the tool name; other parts and responses that cannot be encoded
    yield nothing, so the message may become no wire message or
    several. *)
Theorem tool_message_translation (msg : ai.Message) :
  Message_Role msg = RoleTool →
  Forall (λ part, wellFormedPart part = true) (Content msg) →
  convertMessagesToOpenAI Marshal [msg]
  = Some (omap (toolMessage Marshal) (Content msg)).
Proof.
  intros Hrole Hall.
  unfold convertMessagesToOpenAI. cbn [forRange]. unfold convertMessage.
  destruct (Content msg) as [|part0 rest] eqn:Hcontent; [done|].
  rewrite Hrole.
  change (String.eqb RoleTool RoleSystem) with false.
  change (String.eqb RoleTool RoleUser) with false.
  change (String.eqb RoleTool RoleModel) with false.
  change (String.eqb RoleTool RoleTool) with true. cbv iota.
  rewrite toolPart_closed by done. done.
Qed.

End TranslatorProperties.

Lemma convertMessagesToOpenAI_total_witness :
  is_Some (convertMessagesToOpenAI smallMarshal [toolRequestMessage; toolResponseMessage]).
Proof.
  apply (convertMessagesToOpenAI_total smallMarshal
           [toolRequestMessage; toolResponseMessage]).
  unfold wellFormedMessages, toolRequestMessage, toolResponseMessage.
  repeat (apply Forall_cons; split); try apply Forall_nil; reflexivity.
Defined.

Lemma model_message_translation_witness :
  convertMessagesToOpenAI smallMarshal [toolRequestMessage]
  = Some [OfAssistant "Let me check."
            [ {| Param_ID := "call_get_current_weather"; Param_Type := "function";
                 Param_Function_Name := "get_current_weather";
                 Param_Function_Arguments := "{}" |} ]].
Proof.
  refine (proj1 (model_message_translation smallMarshal toolRequestMessage
                   eq_refl _ _)).
  - discriminate.
  - unfold toolRequestMessage.
    repeat (apply Forall_cons; split); try apply Forall_nil; reflexivity.
Defined.

Lemma tool_message_translation_witness :
  convertMessagesToOpenAI smallMarshal [toolResponseMessage]
  = Some [ OfTool "{}" "call_get_current_weather";
           OfTool "null" "call_get_stock_price" ].
Proof.
  refine (tool_message_translation smallMarshal toolResponseMessage eq_refl _).
  unfold toolResponseMessage.
  repeat (apply Forall_cons; split); try apply Forall_nil; reflexivity.
Defined.

(** ** A response sent back into the conversation *)

Section Reply.
Context (Unmarshal : string → result jsonMap).
Context (Marshal : json → result string).

Lemma assistantText_app (parts1 parts2 : list Part) :
  assistantText (parts1 ++ parts2) = assistantText parts1 +:+ assistantText parts2.
Proof.
  induction parts1 as [|part parts1 IH]; [done|].
  cbn [app assistantText foldr]. fold (assistantText (parts1 ++ parts2)).
  fold (assistantText parts1). rewrite IH.
  destruct (IsText part); [by rewrite append_assoc' | done].
Qed.

Lemma responsePart_tool_request (toolCall : ChatCompletionMessageToolCallUnion)
    (part : Part) :
  responsePart Unmarshal toolCall = Some part →
  wellFormedPart part = true ∧ IsText part = false.
Proof.
  unfold responsePart.
  destruct (nonEmpty (Union_ID toolCall)); [|discriminate].
  destruct (Unmarshal (Union_Function_Arguments toolCall)); [|discriminate].
  by intros [= <-].
Qed.

Lemma responseParts_no_text (toolCalls : list ChatCompletionMessageToolCallUnion) :
  assistantText (omap (responsePart Unmarshal) toolCalls) = ""
  ∧ Forall (λ part, wellFormedPart part = true)
           (omap (responsePart Unmarshal) toolCalls).
Proof.
  induction toolCalls as [|toolCall toolCalls [IHtext IHwf]]; [done|].
  cbn [omap list_omap].
  destruct (responsePart Unmarshal toolCall) as [part|] eqn:Hpart; [|done].
  destruct (responsePart_tool_request _ _ Hpart) as [Hwf Htext].
  split; [|by constructor].
  cbn [assistantText foldr]. rewrite Htext. exact IHtext.
Qed.

(** X19.  When the content of a converted response is sent back as a
    model-role message, the assistant message carries the text of the
    response unchanged, but not the ids the provider gave to its tool
    calls: every tool call of the assistant message has the id "call_"
    followed by its function name, whatever the wire id was; and there are
    no more of them than wire tool calls. *)
Theorem reply_keeps_text_not_call_ids (resp : ChatCompletion)
    (choice : ChatCompletionChoice) (others : list ChatCompletionChoice) :
  Choices resp = choice :: others →
  Content (ModelResponse_Message (convertResponse Unmarshal resp)) ≠ [] →
  ∃ calls,
    convertMessagesToOpenAI Marshal [replyMessage (convertResponse Unmarshal resp)]
    = Some [OfAssistant (Message_Content (Message choice)) calls]
    ∧ Forall (λ call, Param_ID call = callID (Param_Function_Name call)) calls
    ∧ (length calls ≤ length (Message_ToolCalls (Message choice)))%nat.
Proof.
  intros Hchoice Hparts.
  assert (Hcontent :
    Content (ModelResponse_Message (convertResponse Unmarshal resp))
    = (if nonEmpty (Message_Content (Message choice))
       then [NewTextPart (Message_Content (Message choice))] else [])
      ++ omap (responsePart Unmarshal) (Message_ToolCalls (Message choice))).
  { unfold convertResponse. rewrite Hchoice. cbn [ModelResponse_Message Content].
    apply fold_responseToolCall. }
  destruct (responseParts_no_text (Message_ToolCalls (Message choice)))
    as [Hnotext Hwf].
  exists (omap (assistantCall Marshal)
            (Content (ModelResponse_Message (convertResponse Unmarshal resp)))).
  split; [|split].
  - rewrite (convertMessage_model Marshal); [|done|done|].
    + cbn [replyMessage Content]. do 3 f_equal.
      rewrite Hcontent, assistantText_app, Hnotext, append_empty_r.
      destruct (nonEmpty (Message_Content (Message choice))) eqn:Htext.
      * cbn. by rewrite append_empty_r.
      * by apply nonEmpty_false in Htext.
    + cbn [replyMessage Content]. rewrite Hcontent. apply Forall_app.
      split; [|done]. by destruct (nonEmpty _); repeat constructor.
  - apply Forall_forall. intros call Hin.
    apply list_elem_of_omap in Hin as (part & _ & Hcall).
    by apply (assistantCall_id Marshal) in Hcall as [? _].
  - rewrite Hcontent, omap_app, length_app.
    pose proof (length_omap_le (assistantCall Marshal)
                  (omap (responsePart Unmarshal) (Message_ToolCalls (Message choice)))).
    pose proof (length_omap_le (responsePart Unmarshal)
                  (Message_ToolCalls (Message choice))).
    assert (Htext : omap (assistantCall Marshal)
                      (if nonEmpty (Message_Content (Message choice))
                       then [NewTextPart (Message_Content (Message choice))] else [])
                    = []) by (by destruct (nonEmpty _)).
    rewrite Htext. cbn [length]. lia.
Qed.

End Reply.

Lemma reply_keeps_text_not_call_ids_witness :
  ∃ calls,
    convertMessagesToOpenAI smallMarshal
      [replyMessage (convertResponse JSONRef.Unmarshal toolCallResponse)]
    = Some [OfAssistant "Checking." calls]
    ∧ Forall (λ call, Param_ID call = callID (Param_Function_Name call)) calls.
Proof.
  destruct (reply_keeps_text_not_call_ids JSONRef.Unmarshal smallMarshal
              toolCallResponse _ _ eq_refl) as (calls & Hrun & Hids & _).
  - vm_compute. discriminate.
  - exists calls. exact (conj Hrun Hids).
Defined.

(** ** Dispatch *)

Section Dispatch.
Context {float64 : Type}.
Context (New : @ChatCompletionNewParams float64 → result ChatCompletion).
Context (NewStreaming : @ChatCompletionNewParams float64 → Stream).
Context (Unmarshal : string → result jsonMap).
Context (Marshal : json → result string).
Context (range : gmap Z toolCallAccumulator → list (Z * toolCallAccumulator)).
Context {S : Type}.


End Dispatch.


(** ** Embeddings *)

Section EmbeddingProperties.
Context {float64 float32 : Type}.
Context (toFloat32 : float64 → float32).
Context {St : Type}.
Context (EmbeddingsNew : St → string → string → St * result (list (list float64))).
Implicit Types (docs : list Document) (st : St).

Lemma eqb_empty_nonEmpty (text : string) :
  String.eqb text "" = negb (nonEmpty text).
Proof. unfold nonEmpty. by rewrite negb_involutive. Qed.

Lemma documentText_closed (doc : Document) :
  documentText doc = assistantText (Document_Content doc).
Proof.
  unfold documentText.
  assert (Hgen : ∀ parts text,
    fold_left (λ inputText part,
                 if IsText part then inputText +:+ Text part else inputText)
              parts text
    = text +:+ assistantText parts).
  { induction parts as [|part parts IH]; intros text; cbn [fold_left].
    - cbn. by rewrite append_empty_r.
    - rewrite IH. cbn [assistantText foldr]. fold (assistantText parts).
      destruct (IsText part); [by rewrite append_assoc' | done]. }
  by rewrite Hgen, append_empty_l.
Qed.

Lemma embedLoop_app (modelName : string) docs1 docs2
    (embeddings : list (list float32)) st :
  embedLoop toFloat32 EmbeddingsNew modelName (docs1 ++ docs2) embeddings st
  = match embedLoop toFloat32 EmbeddingsNew modelName docs1 embeddings st with
    | (st', Ok embeddings') =>
        embedLoop toFloat32 EmbeddingsNew modelName docs2 embeddings' st'
    | (st', Err err) => (st', Err err)
    end.
Proof.
  revert embeddings st.
  induction docs1 as [|doc docs1 IH]; intros embeddings st; cbn [app embedLoop]; [done|].
  destruct (String.eqb (documentText doc) ""); [apply IH|].
  destruct (EmbeddingsNew st modelName (documentText doc)) as [st' [data|err]];
    [|done].
  destruct data; apply IH.
Qed.

(** X21.  The first failing call of the embeddings client ends [embed]:
    it returns the client's error wrapped with the name of the model and no
    embedding, not even those already obtained, and the documents after
    the failing one are not sent. *)
Theorem embed_first_failure_aborts (modelName : string)
    (before after : list Document) (doc : Document) st st1 st2
    (obtained : list (list float32)) (cause : error) :
  embed toFloat32 EmbeddingsNew modelName {| EmbedRequest_Input := before |} st
  = (st1, Ok obtained) →
  documentText doc ≠ "" →
  EmbeddingsNew st1 modelName (documentText doc) = (st2, Err cause) →
  embed toFloat32 EmbeddingsNew modelName
    {| EmbedRequest_Input := before ++ doc :: after |} st
  = (st2, Err (Wrap ("embedding generation failed for model '" +:+ modelName +:+ "'")
                 cause)).
Proof.
  unfold embed. cbn [EmbedRequest_Input]. intros Hbefore Htext Hcall.
  rewrite embedLoop_app, Hbefore. cbn [embedLoop].
  apply String.eqb_neq in Htext. by rewrite Htext, Hcall.
Qed.

Lemma embedLoop_calls (modelName : string) docs
    (embeddings out : list (list float32)) st st' :
  embedLoop toFloat32 EmbeddingsNew modelName docs embeddings st = (st', Ok out) →
  st' = fold_left (λ st text, (EmbeddingsNew st modelName text).1)
          (List.filter nonEmpty (map documentText docs)) st
  ∧ (length embeddings ≤ length out
     ≤ length embeddings + length (List.filter nonEmpty (map documentText docs)))%nat.
Proof.
  revert embeddings st.
  induction docs as [|doc docs IH]; intros embeddings st; cbn [embedLoop map List.filter].
  - intros [= <- <-]. cbn. split; [done | lia].
  - rewrite (eqb_empty_nonEmpty (documentText doc)).
    destruct (nonEmpty (documentText doc)); cbn [negb]; [|apply IH].
    cbn [fold_left length].
    destruct (EmbeddingsNew st modelName (documentText doc)) as [st1 [data|err]];
      [|discriminate].
    cbn [fst]. destruct data as [|first rest]; intros Hloop;
      apply IH in Hloop as [Hst Hlen]; (split; [exact Hst|]);
      rewrite ?length_app in Hlen; cbn [length] in Hlen; lia.
Qed.

(** X22.  [embed] sends to the client exactly the documents whose text is
    not empty, once each and in order, where the text of a document is the
    concatenation of its Text parts (documents made of other parts are
    skipped without a call); a successful call returns at most one
    embedding for each text sent, so there may be fewer embeddings than
    documents. *)
Theorem embed_sends_nonempty_texts (modelName : string) (req : EmbedRequest) st st'
    (out : list (list float32)) :
  embed toFloat32 EmbeddingsNew modelName req st = (st', Ok out) →
  st' = fold_left (λ st text, (EmbeddingsNew st modelName text).1)
          (List.filter nonEmpty (map documentText (EmbedRequest_Input req))) st
  ∧ (length out
     ≤ length (List.filter nonEmpty (map documentText (EmbedRequest_Input req)))
     ≤ length (EmbedRequest_Input req))%nat
  ∧ ∀ doc, documentText doc = assistantText (Document_Content doc).
Proof.
  unfold embed. intros Hloop.
  apply embedLoop_calls in Hloop as [Hcalls Hlen]. cbn [length] in Hlen.
  split; [done|]. split; [|apply documentText_closed].
  split; [lia|].
  rewrite <- (length_map documentText (EmbedRequest_Input req)).
  apply List.filter_length_le.
Qed.

(** X23.  With a client that answers every text with at least one vector,
    [embed] succeeds and returns, for each document with a non-empty text
    and in order, the first vector of the answer converted element by
    element to [float32]; further vectors of an answer are ignored. *)
Theorem embed_first_vector_of_each_text (modelName : string) (req : EmbedRequest)
    (first : string → list float64) (more : string → list (list float64)) st :
  (∀ st text, EmbeddingsNew st modelName text = (st, Ok (first text :: more text))) →
  embed toFloat32 EmbeddingsNew modelName req st
  = (st, Ok (map (λ text, map toFloat32 (first text))
               (List.filter nonEmpty (map documentText (EmbedRequest_Input req))))).
Proof.
  intros Hclient. unfold embed.
  assert (Hgen : ∀ docs embeddings,
    embedLoop toFloat32 EmbeddingsNew modelName docs embeddings st
    = (st, Ok (embeddings ++
               map (λ text, map toFloat32 (first text))
                 (List.filter nonEmpty (map documentText docs))))).
  { induction docs as [|doc docs IH]; intros embeddings;
      cbn [embedLoop map List.filter].
    - by rewrite app_nil_r.
    - rewrite (eqb_empty_nonEmpty (documentText doc)).
      destruct (nonEmpty (documentText doc)); cbn [negb]; [|apply IH].
      rewrite Hclient, IH. cbn [map]. by rewrite <- app_assoc. }
  by rewrite Hgen.
Qed.

End EmbeddingProperties.

Lemma embed_first_failure_aborts_witness :
  embed Datatypes.S (failingEmbedder 2) "text-embedding-3-small"
    {| EmbedRequest_Input := [ {| Document_Content := [NewTextPart "one"] |} ]
                             ++ {| Document_Content := [NewTextPart "two"] |}
                             :: [ {| Document_Content := [NewTextPart "three"] |} ] |}
    0%nat
  = (2%nat,
     Err (Wrap ("embedding generation failed for model '"
                +:+ "text-embedding-3-small" +:+ "'")
            (ErrorString "429 Too Many Requests"))).
Proof.
  apply (embed_first_failure_aborts Datatypes.S (failingEmbedder 2)
           "text-embedding-3-small"
           [ {| Document_Content := [NewTextPart "one"] |} ]
           [ {| Document_Content := [NewTextPart "three"] |} ]
           {| Document_Content := [NewTextPart "two"] |}
           0%nat 1%nat 2%nat [[4%nat]]).
  - vm_compute. reflexivity.
  - vm_compute. discriminate.
  - vm_compute. reflexivity.
Defined.

Lemma embed_sends_nonempty_texts_witness :
  ["Hello, world"; "Goodbye"]
  = fold_left (λ st text, (lengthEmbedder st "text-embedding-3-small" text).1)
      (List.filter nonEmpty (map documentText sampleDocuments)) [].
Proof.
  apply (embed_sends_nonempty_texts Datatypes.S lengthEmbedder "text-embedding-3-small"
           {| EmbedRequest_Input := sampleDocuments |} []
           ["Hello, world"; "Goodbye"] [[13%nat]; [8%nat]]).
  vm_compute. reflexivity.
Defined.

Lemma embed_first_vector_of_each_text_witness :
  embed Datatypes.S (λ (st : unit) (model text : string),
                       (st, Ok ([String.length text] :: [[0%nat]])))
    "text-embedding-3-small" {| EmbedRequest_Input := sampleDocuments |} tt
  = (tt, Ok [[13%nat]; [8%nat]]).
Proof.
  refine (embed_first_vector_of_each_text Datatypes.S
            (λ (st : unit) (model text : string),
               (st, Ok ([String.length text] :: [[0%nat]])))
            "text-embedding-3-small" {| EmbedRequest_Input := sampleDocuments |}
            (λ text, [String.length text]) (λ _, [[0%nat]]) tt _).
  reflexivity.
Defined.

(** ** Streamed and complete answers *)

Section StreamedVersusComplete.
Context (Unmarshal : string → result jsonMap).
Context (range : gmap Z toolCallAccumulator → list (Z * toolCallAccumulator)).
Context (Hrange : rangeOrder range).
Context {S : Type}.

Lemma range_empty : range ∅ = [].
Proof.
  apply Permutation_nil_r. by rewrite (Hrange ∅), map_to_list_empty.
Qed.

(** X24.  A text-only answer gives the same message whether it is
    streamed or delivered whole: when no chunk carries a tool-call
    fragment, the message of the streamed response is the message that
    [convertResponse] builds from a complete response whose content is the
    concatenation of the chunk texts, and the finish reason is the one of
    a complete response that finished with stop. *)
Theorem streamed_text_matches_complete (stream : Stream)
    (cb : option (S → ModelResponseChunk → S * option error)) (s0 s : S)
    (resp : ModelResponse) :
  fragmentsOf (chunks stream) = [] →
  generateTextStream Unmarshal range stream cb s0 = (s, Ok resp) →
  ModelResponse_Message resp
  = ModelResponse_Message
      (convertResponse Unmarshal
         (wireResponse (streamText (chunks stream)) [] "stop" 0 0 0))
  ∧ ModelResponse_FinishReason resp
    = ModelResponse_FinishReason
        (convertResponse Unmarshal
           (wireResponse (streamText (chunks stream)) [] "stop" 0 0 0)).
Proof.
  intros Hnone. unfold generateTextStream.
  change {| fullText := ""; toolCallsMap := ∅ |} with initialVars.
  destruct (returned (streamLoop cb (chunks stream) initialVars s0)) eqn:Hret;
    [discriminate|].
  destruct (streamErr stream); [discriminate|].
  destruct (streamLoop_processed cb (chunks stream) initialVars s0)
    as (processed & _ & Hall & Hmap).
  rewrite (Hall Hret), Hnone in Hmap. cbn in Hmap.
  rewrite Hmap. unfold convertToolCallsToParts. rewrite range_empty. cbn [forRangeErr].
  rewrite length_pos_nonEmpty, streamLoop_fullText by done.
  unfold initialVars. cbn [fullText]. rewrite append_empty_l.
  intros [= _ <-]. unfold convertResponse, wireResponse.
  cbn [Choices Message Message_Content Message_ToolCalls fold_left
       ModelResponse_Message ModelResponse_FinishReason openai.FinishReason].
  by rewrite app_nil_r.
Qed.

End StreamedVersusComplete.

Lemma streamed_text_matches_complete_witness :
  {| Message_Role := RoleModel; Content := [NewTextPart "Hello"] |}
  = ModelResponse_Message
      (convertResponse JSONRef.Unmarshal
         (wireResponse (streamText (chunks helloStream)) [] "stop" 0 0 0)).
Proof.
  exact (proj1 (streamed_text_matches_complete JSONRef.Unmarshal map_to_list
                  map_to_list_rangeOrder helloStream (Some recordText) []
                  ["He"; "llo"]
                  {| ModelResponse_Message :=
                       {| Message_Role := RoleModel;
                          Content := [NewTextPart "Hello"] |};
                     ModelResponse_FinishReason := FinishReasonStop;
                     ai.Usage := None |}
                  eq_refl ltac:(vm_compute; reflexivity))).
Defined.
